(** * pgshift: the icon generator [create_icon.py]

    The script synthesizes a 512x512 RGBA image pixel by pixel with Python
    float arithmetic and serializes it as a PNG stream.  Python floats are
    IEEE 754 binary64 values, which are Rocq's primitive floats, so the shading
    routine is embedded operation for operation and can be evaluated. *)

From Stdlib Require Import ZArith List Bool Lia Floats String.
From Stdlib Require Uint63.
Import ListNotations.

Set Warnings "-inexact-float,-abstract-large-number".
Local Open Scope Z_scope.

(** ** Errors

    A Python exception ([ValueError] and [OverflowError] of [int], [ValueError]
    of [bytes], [struct.error]) aborts the script; it is [None] here. *)

Definition bind {A B : Type} (m : option A) (f : A -> option B) : option B :=
  match m with
  | Some a => f a
  | None => None
  end.

Notation "x <- m ;; k" := (bind m (fun x => k))
  (at level 61, m at next level, right associativity).

(** ** Python numbers *)

Module PyFloat.

(** [float(z)] for a Python int; exact for [0 <= |z| < 2^53], which covers
    every integer the script converts. *)
Definition of_int (z : Z) : float :=
  if z <? 0 then (- PrimFloat.of_uint63 (Uint63.of_Z (- z)))%float
  else PrimFloat.of_uint63 (Uint63.of_Z z).

(** [int(f)]: truncation toward zero; raises on an infinity or a NaN. *)
Definition to_int (f : float) : option Z :=
  match Prim2SF f with
  | S754_zero _ => Some 0
  | S754_finite s m e =>
      let v := if 0 <=? e then Z.pos m * 2 ^ e else Z.pos m / 2 ^ (- e) in
      Some (if s then - v else v)
  | S754_infinity _ => None
  | S754_nan => None
  end.

(** [a / b] on two ints (true division, [b <> 0]): the correctly rounded
    quotient, which for operands below [2^53] is the binary64 quotient of the
    converted operands. *)
Definition truediv (a b : Z) : float := (of_int a / of_int b)%float.

(** [v ** 0.5] on a non-negative float: CPython calls the C library's [pow];
    it is taken to be the correctly rounded square root. *)
Definition pow_half (v : float) : float := PrimFloat.sqrt v.

(** [v ** 2]: again the C library's [pow], taken to be the rounded product. *)
Definition pow2 (v : float) : float := (v * v)%float.

(** [a > b] is [b < a]. *)
Definition gtb (a b : float) : bool := (b <? a)%float.

End PyFloat.

Notation "a >? b" := (PyFloat.gtb a b) (at level 70, no associativity) : float_scope.

(** ** The image synthesizer (lines 5-57) *)

Module Synth.

Import PyFloat.

Definition size : Z := 512.

(** A pixel is the four values appended to [row]. *)
Definition color : Type := (Z * Z * Z * Z)%type.

Definition rgb_of (c : color) : Z * Z * Z :=
  let '(r, g, b, _) := c in (r, g, b).

Definition alpha_of (c : color) : Z :=
  let '(_, _, _, a) := c in a.

(** [r, g, b = ...] leaves [a] as it is. *)
Definition set_rgb (c : color) (r g b : Z) : color := (r, g, b, alpha_of c).

(** [(x - size/2) / (size/2)] *)
Definition norm (x : Z) : float :=
  ((of_int x - truediv size 2) / truediv size 2)%float.

Definition sumsq (nx ny : float) : float := (nx * nx + ny * ny)%float.

Definition dist_of (nx ny : float) : float := pow_half (sumsq nx ny).

Definition dist (x y : Z) : float := dist_of (norm x) (norm y).

(** *** Interior: line 16-17, the vertical gradient *)

Definition gradient (y : Z) : float := truediv y size.

Definition base_color (y : Z) : option color :=
  let gradient := gradient y in
  r <- to_int (30 + gradient * 40)%float ;;
  g <- to_int (20 + gradient * 30)%float ;;
  b <- to_int (80 + gradient * 80)%float ;;
  Some (r, g, b, 255).

(** *** Lines 19-27: the two cylinders.  The constants of lines 19-20 are
    arguments, so that the tests can be stated for any placement of the
    cylinders; [cyl_width] and [ellipse_h] are fixed. *)

Definition cyl_width : float := 0.5.
Definition ellipse_h : float := 0.08.

Definition in_cyl (cy cyl_height nx ny : float) : bool :=
  (abs nx <? cyl_width)%float && (abs (ny - cy) <? cyl_height)%float.

(** The cap centred on the upper edge [cy - cyl_height] of a cylinder. *)
Definition cap_upper (cy cyl_height nx ny : float) : bool :=
  (pow2 (nx / cyl_width) + pow2 ((ny - cy + cyl_height) / ellipse_h) <? 1)%float.

(** The cap centred on the lower edge [cy + cyl_height]. *)
Definition cap_lower (cy cyl_height nx ny : float) : bool :=
  (pow2 (nx / cyl_width) + pow2 ((ny - cy - cyl_height) / ellipse_h) <? 1)%float.

Definition shade (nx : float) : float := (1.0 - abs nx / cyl_width * 0.3)%float.

(** Line 29 and line 35: the membership test of a whole cylinder. *)
Definition cyl_test (cy cyl_height nx ny : float) : bool :=
  in_cyl cy cyl_height nx ny || cap_upper cy cyl_height nx ny
  || cap_lower cy cyl_height nx ny.

(** Lines 30-33 and 36-39: the shaded colour, then the upper cap's colour. *)
Definition cyl_paint (kr kg kb : float) (cap : Z * Z * Z) (upper : bool)
    (nx : float) (c : color) : option color :=
  let shade := shade nx in
  r <- to_int (kr * shade)%float ;;
  g <- to_int (kg * shade)%float ;;
  b <- to_int (kb * shade)%float ;;
  let c := set_rgb c r g b in
  Some (if upper then let '(r, g, b) := cap in set_rgb c r g b else c).

Definition top_paint : bool -> float -> color -> option color :=
  cyl_paint 40 180 100 (60, 220, 130).

Definition bot_paint : bool -> float -> color -> option color :=
  cyl_paint 60 140 220 (80, 170, 255).

(** *** Lines 41-48: connector and arrowhead *)

Definition red : Z * Z * Z := (255, 100, 100).

Definition connector_test (cy1 cy2 cyl_height nx ny : float) : bool :=
  (abs nx <? 0.08)%float && (ny >? cy1 + cyl_height + 0.05)%float
  && (ny <? cy2 - cyl_height - 0.05)%float.

Definition arrow_tip_y (cy2 cyl_height : float) : float :=
  (cy2 - cyl_height - 0.08)%float.

Definition arrow_w (cy2 cyl_height ny : float) : float :=
  (0.15 * (1 - (ny - arrow_tip_y cy2 cyl_height + 0.08) / 0.13))%float.

Definition arrow_test (cy2 cyl_height nx ny : float) : bool :=
  (ny >? arrow_tip_y cy2 cyl_height - 0.08)%float
  && (ny <? arrow_tip_y cy2 cyl_height + 0.05)%float
  && (abs nx <? arrow_w cy2 cyl_height ny)%float.

Definition paint_red (test : bool) (c : color) : color :=
  if test then let '(r, g, b) := red in set_rgb c r g b else c.

(** *** The interior branch, lines 16-48, in the order of the source *)

Definition interior_with (cy1 cy2 cyl_height : float) (nx ny : float) (y : Z)
    : option color :=
  c <- base_color y ;;
  c <- (if cyl_test cy1 cyl_height nx ny
        then top_paint (cap_upper cy1 cyl_height nx ny) nx c else Some c) ;;
  c <- (if cyl_test cy2 cyl_height nx ny
        then bot_paint (cap_upper cy2 cyl_height nx ny) nx c else Some c) ;;
  let c := paint_red (connector_test cy1 cy2 cyl_height nx ny) c in
  let c := paint_red (arrow_test cy2 cyl_height nx ny) c in
  Some c.

(** *** The rim, lines 50-52 *)

Definition af (dist : float) : float := ((0.9 - dist) / 0.05)%float.

Definition rim_color (dist : float) : option color :=
  let af := af dist in
  r <- to_int (100 * af)%float ;;
  g <- to_int (80 * af)%float ;;
  b <- to_int (180 * af)%float ;;
  a <- to_int (255 * af)%float ;;
  Some (r, g, b, a).

(** *** One iteration of the inner loop, lines 11-54 *)

Definition pixel_with (cy1 cy2 cyl_height : float) (x y : Z) : option color :=
  let nx := norm x in
  let ny := norm y in
  let dist := dist_of nx ny in
  if (dist <? 0.85)%float then interior_with cy1 cy2 cyl_height nx ny y
  else if (dist <? 0.9)%float then rim_color dist
  else Some (0, 0, 0, 0).

(** Line 19-20: [cy1, cy2 = -0.25, 0.25] and [cyl_height = 0.25]. *)
Definition cy1 : float := (-0.25)%float.
Definition cy2 : float := 0.25.
Definition cyl_height : float := 0.25.

Definition pixel (x y : Z) : option color := pixel_with cy1 cy2 cyl_height x y.

Definition in_top_cyl (x y : Z) : bool := in_cyl cy1 cyl_height (norm x) (norm y).
Definition in_bot_cyl (x y : Z) : bool := in_cyl cy2 cyl_height (norm x) (norm y).
Definition top_e1 (x y : Z) : bool := cap_upper cy1 cyl_height (norm x) (norm y).
Definition bot_e1 (x y : Z) : bool := cap_lower cy1 cyl_height (norm x) (norm y).
Definition top_e2 (x y : Z) : bool := cap_upper cy2 cyl_height (norm x) (norm y).
Definition bot_e2 (x y : Z) : bool := cap_lower cy2 cyl_height (norm x) (norm y).
Definition top_test (x y : Z) : bool := cyl_test cy1 cyl_height (norm x) (norm y).
Definition bot_test (x y : Z) : bool := cyl_test cy2 cyl_height (norm x) (norm y).
Definition connector (x y : Z) : bool :=
  connector_test cy1 cy2 cyl_height (norm x) (norm y).
Definition arrow (x y : Z) : bool := arrow_test cy2 cyl_height (norm x) (norm y).

(** [range(n)], from [lo]. *)
Fixpoint range_from (lo : Z) (n : nat) : list Z :=
  match n with
  | O => []
  | S m => lo :: range_from (lo + 1) m
  end.

Definition range (n : Z) : list Z := range_from 0 (Z.to_nat n).

(** [bytes(l)]: every item must be in [range(256)]. *)
Definition bytes (l : list Z) : option (list Z) :=
  if forallb (fun v => (0 <=? v) && (v <? 256)) l then Some l else None.

(** The inner loop: [row.extend([r, g, b, a])] for each [x]. *)
Fixpoint row_of (y : Z) (xs : list Z) : option (list Z) :=
  match xs with
  | [] => Some []
  | x :: xs' =>
      c <- pixel x y ;;
      rest <- row_of y xs' ;;
      let '(r, g, b, a) := c in Some (r :: g :: b :: a :: rest)
  end.

(** The outer loop: [pixels.append(bytes([0] + row))]. *)
Fixpoint rows_of (ys xs : list Z) : option (list (list Z)) :=
  match ys with
  | [] => Some []
  | y :: ys' =>
      row <- row_of y xs ;;
      line <- bytes (0 :: row) ;;
      rest <- rows_of ys' xs ;;
      Some (line :: rest)
  end.

Definition pixels : option (list (list Z)) := rows_of (range size) (range size).

(** Line 59: [raw = b''.join(pixels)]. *)
Definition raw : option (list Z) := ps <- pixels ;; Some (List.concat ps).

End Synth.

(** ** The PNG encoder (lines 61-66) *)

Module Png.

(** The format characters the script uses with [struct.pack] under the
    big-endian prefix [>]: [I] is an unsigned 32-bit integer and [B] an
    unsigned byte.  A value out of range raises [struct.error]. *)
Inductive fmt : Type :=
  | fmt_I
  | fmt_B.

Definition be32 (v : Z) : list Z :=
  [Z.land (Z.shiftr v 24) 255; Z.land (Z.shiftr v 16) 255;
   Z.land (Z.shiftr v 8) 255; Z.land v 255].

Definition pack1 (f : fmt) (v : Z) : option (list Z) :=
  match f with
  | fmt_I => if (0 <=? v) && (v <? 2 ^ 32) then Some (be32 v) else None
  | fmt_B => if (0 <=? v) && (v <? 256) then Some [v] else None
  end.

(** [struct.pack('>' + fs, *vs)]; a wrong number of values raises. *)
Fixpoint pack (fs : list fmt) (vs : list Z) : option (list Z) :=
  match fs, vs with
  | [], [] => Some []
  | f :: fs', v :: vs' =>
      a <- pack1 f v ;;
      rest <- pack fs' vs' ;;
      Some (a ++ rest)
  | _, _ => None
  end.

(** [zlib.crc32]: the CRC-32 of ISO 3309 and of the PNG specification,
    reflected polynomial [0xEDB88320], initial value and final xor
    [0xFFFFFFFF], computed bit by bit. *)
Definition crc_shift (c : Z) : Z :=
  if Z.testbit c 0 then Z.lxor (Z.shiftr c 1) 0xEDB88320 else Z.shiftr c 1.

Definition crc_byte (c b : Z) : Z := Nat.iter 8 crc_shift (Z.lxor c b).

Definition crc32 (data : list Z) : Z :=
  Z.lxor (fold_left crc_byte data 0xFFFFFFFF) 0xFFFFFFFF.

Definition len (d : list Z) : Z := Z.of_nat (List.length d).

(** Lines 61-63. *)
Definition chunk (t d : list Z) : option (list Z) :=
  let c := t ++ d in
  n <- pack [fmt_I] [len d] ;;
  crc <- pack [fmt_I] [Z.land (crc32 c) 0xffffffff] ;;
  Some (n ++ c ++ crc).

(** The framing of a chunk as the specification words it: length, type
    tag, payload, then the CRC-32 of tag and payload. *)
Definition framed (t d : list Z) : list Z :=
  be32 (len d) ++ t ++ d ++ be32 (Z.land (crc32 (t ++ d)) 0xffffffff).

(** Line 65. *)
Definition ihdr : option (list Z) :=
  pack [fmt_I; fmt_I; fmt_B; fmt_B; fmt_B; fmt_B; fmt_B]
       [Synth.size; Synth.size; 8; 6; 0; 0; 0].

(** [b'\x89PNG\r\n\x1a\n'] and the three type tags. *)
Definition signature : list Z := [137; 80; 78; 71; 13; 10; 26; 10].
Definition IHDR : list Z := [73; 72; 68; 82].
Definition IDAT : list Z := [73; 68; 65; 84].
Definition IEND : list Z := [73; 69; 78; 68].

Section Program.

(** [zlib.compress(data, level)] is the deflate compressor of the C library
    behind Python's [zlib]; it is a parameter. *)
Variable zlib_compress : list Z -> Z -> list Z.

(** Line 66, after the pixel loop and line 65. *)
Definition png : option (list Z) :=
  raw <- Synth.raw ;;
  ihdr <- ihdr ;;
  c1 <- chunk IHDR ihdr ;;
  c2 <- chunk IDAT (zlib_compress raw 9) ;;
  c3 <- chunk IEND [] ;;
  Some (signature ++ c1 ++ c2 ++ c3).

(** Lines 68-70: the file system and the standard output are the
    environment's; [write_file] is [None] when [open] or [write] raises. *)
Variable World : Type.
Variable write_file : World -> string -> list Z -> option World.
Variable print : World -> string -> World.

Definition main (w : World) : option World :=
  data <- png ;;
  w <- write_file w "src-tauri/icons/icon.png" data ;;
  Some (print w "Created 512x512 pgshift icon").

End Program.

End Png.

(** ** The order of binary64 values

    A float that is not a NaN has a place on the extended real line; [key]
    gives it as a triple ordered lexicographically, which is how the
    comparison of the IEEE specification proceeds. *)

Module FloatOrder.

Definition key (s : spec_float) : option (Z * Z * Z) :=
  match s with
  | S754_nan => None
  | S754_infinity true => Some (-2, 0, 0)
  | S754_infinity false => Some (2, 0, 0)
  | S754_zero _ => Some (0, 0, 0)
  | S754_finite true m e => Some (-1, - e, - Z.pos m)
  | S754_finite false m e => Some (1, e, Z.pos m)
  end.

Definition lex_lt (a b : Z * Z * Z) : Prop :=
  let '(a1, a2, a3) := a in
  let '(b1, b2, b3) := b in
  a1 < b1 \/ (a1 = b1 /\ (a2 < b2 \/ (a2 = b2 /\ a3 < b3))).

Definition before (x y : spec_float) : Prop :=
  match key x, key y with
  | Some a, Some b => lex_lt a b
  | _, _ => False
  end.

Definition same (x y : spec_float) : Prop :=
  match key x, key y with
  | Some a, Some b => a = b
  | _, _ => False
  end.

End FloatOrder.

(** ** The canvas, pixel by pixel

    Both coordinates of a pixel are multiples of [1/256], so the squared
    distance of pixel [(x, y)] from the centre is [sqk x y / 65536] exactly,
    and the branch a pixel takes and its rim colour are functions of the
    integer [sqk x y].  The checks below are evaluated over the rows, the
    columns and the squared distances of the canvas. *)

Module Canvas.

Import PyFloat Synth.

Definition on_canvas (x y : Z) : Prop := 0 <= x < size /\ 0 <= y < size.

Definition sqk (x y : Z) : Z := (x - 256) * (x - 256) + (y - 256) * (y - 256).

Definition Q (k : Z) : float := (of_int k / 65536)%float.

Definition D (k : Z) : float := pow_half (Q k).

Definition in_byte (v : Z) : bool := (0 <=? v) && (v <? 256).

(** The base colour of row [y] is defined, fits in bytes, is opaque and its
    red channel is below 255. *)
Definition base_ok (y : Z) : bool :=
  match base_color y with
  | Some (r, g, b, a) => in_byte r && in_byte g && in_byte b && (r <? 255) && (a =? 255)
  | None => false
  end.

(** A shaded channel [int(k * shade)] of column [x] is defined and below 255. *)
Definition chan_ok (k : float) (x : Z) : bool :=
  match to_int (k * shade (norm x))%float with
  | Some v => (0 <=? v) && (v <? 255)
  | None => false
  end.

Definition shade_ok (x : Z) : bool :=
  chan_ok 40 x && chan_ok 180 x && chan_ok 100 x
  && chan_ok 60 x && chan_ok 140 x && chan_ok 220 x.

Definition sumsq_ok (x y : Z) : bool :=
  PrimFloat.Leibniz.eqb (sumsq (norm x) (norm y)) (Q (sqk x y)).

(** A rim colour is defined, its channels are ordered as those of the full
    rim colour (100, 80, 180, 255) and stay below them. *)
Definition rim_ok (d : float) : bool :=
  match rim_color d with
  | Some (r, g, b, a) =>
      (0 <=? g) && (g <=? r) && (r <=? b) && (b <=? a)
      && (r <? 100) && (g <? 80) && (b <? 180) && (a <? 255)
  | None => false
  end.

(** The squared distances of the interior, of the rim and of the outside. *)
Definition k_interior : Z := 47349.
Definition k_rim : Z := 53084.
Definition k_max : Z := 131072.

Definition class_ok (k : Z) : bool :=
  let d := D k in
  if k <=? k_interior then (d <? 0.85)%float
  else if k <=? k_rim then negb (d <? 0.85)%float && (d <? 0.9)%float && rim_ok d
  else negb (d <? 0.85)%float && negb (d <? 0.9)%float.

Definition rim_alpha (d : float) : option Z := to_int (255 * af d)%float.

(** From one squared distance of the rim to the next the distance grows and
    the alpha does not. *)
Definition mono_ok (k : Z) : bool :=
  (D k <? D (k + 1))%float
  && match rim_alpha (D k), rim_alpha (D (k + 1)) with
     | Some a, Some a' => a' <=? a
     | _, _ => false
     end.

(** Columns [x] and [size - x] have opposite abscissas: what the shading
    reads of them is the same. *)
Definition mirror_ok (x : Z) : bool :=
  let a := norm x in
  let b := norm (size - x) in
  PrimFloat.Leibniz.eqb (abs b) (abs a)
  && PrimFloat.Leibniz.eqb (b * b)%float (a * a)%float
  && PrimFloat.Leibniz.eqb (pow2 (b / cyl_width)) (pow2 (a / cyl_width)).

(** The lower cap of the top cylinder and the upper cap of the bottom one
    are centred on the same ordinate. *)
Definition caps_meet_ok (y : Z) : bool :=
  PrimFloat.Leibniz.eqb (norm y - cy1 - cyl_height)%float
                        (norm y - cy2 + cyl_height)%float.

(** From one row to the next no channel of the base colour falls. *)
Definition base_step_ok (y : Z) : bool :=
  match base_color y, base_color (y + 1) with
  | Some (r, g, b, _), Some (r', g', b', _) => (r <=? r') && (g <=? g') && (b <=? b')
  | _, _ => false
  end.

(** A colour the interior can hold between two stages: bytes, opaque, and
    not the red of the connector and the arrowhead. *)
Definition good (c : color) : Prop :=
  let '(r, g, b, a) := c in
  0 <= r < 255 /\ 0 <= g < 256 /\ 0 <= b < 256 /\ a = 255.

End Canvas.

(** * Properties *)

Lemma bind_Some {A B : Type} (m : option A) (f : A -> option B) (b : B) :
  bind m f = Some b -> exists a, m = Some a /\ f a = Some b.
Proof. destruct m as [a|]; simpl; [eauto | discriminate]. Qed.

(** ** Ranges *)

Lemma In_range_from (v lo : Z) (n : nat) :
  lo <= v < lo + Z.of_nat n -> In v (Synth.range_from lo n).
Proof.
  revert lo. induction n as [|n IH]; intros lo H; simpl.
  - lia.
  - destruct (Z.eq_dec lo v) as [E|E]; [left; exact E|].
    right. apply IH. lia.
Qed.

Lemma range_from_forall (P : Z -> bool) (lo : Z) (n : nat) :
  forallb P (Synth.range_from lo n) = true ->
  forall v, lo <= v < lo + Z.of_nat n -> P v = true.
Proof.
  intros H v Hv. rewrite forallb_forall in H. apply H, In_range_from, Hv.
Qed.

(** ** Comparison of floats follows [key] *)

Module FloatOrderFacts.

Import FloatOrder.

Lemma SFcompare_key (x y : spec_float) :
  match SFcompare x y with
  | Some Lt => before x y
  | Some Eq => same x y
  | Some Gt => before y x
  | None => key x = None \/ key y = None
  end.
Proof.
  unfold before, same.
  destruct x as [[|]|[|]| |[|] m e], y as [[|]|[|]| |[|] m' e']; simpl; auto; try lia.
  - destruct (Z.compare_spec e e'); simpl; try lia.
    rewrite Pos.compare_cont_spec; simpl.
    destruct (Pos.compare_spec m m'); simpl; subst; auto; lia.
  - destruct (Z.compare_spec e e'); simpl; try lia.
    rewrite Pos.compare_cont_spec; simpl.
    destruct (Pos.compare_spec m m'); simpl; subst; auto; lia.
Qed.

Lemma before_trans (x y z : spec_float) : before x y -> before y z -> before x z.
Proof.
  unfold before, lex_lt.
  destruct (key x) as [[[? ?] ?]|], (key y) as [[[? ?] ?]|], (key z) as [[[? ?] ?]|];
    simpl; try tauto; lia.
Qed.

Lemma before_asym (x y : spec_float) : before x y -> before y x -> False.
Proof.
  unfold before, lex_lt.
  destruct (key x) as [[[? ?] ?]|], (key y) as [[[? ?] ?]|]; simpl; try tauto; lia.
Qed.

Lemma same_not_before (x y : spec_float) : same x y -> before y x -> False.
Proof.
  unfold before, same, lex_lt.
  destruct (key x) as [[[? ?] ?]|], (key y) as [[[? ?] ?]|]; simpl; try tauto.
  intros [= -> -> ->]; lia.
Qed.

Lemma same_not_before' (x y : spec_float) : same x y -> before x y -> False.
Proof.
  unfold before, same, lex_lt.
  destruct (key x) as [[[? ?] ?]|], (key y) as [[[? ?] ?]|]; simpl; try tauto.
  intros [= -> -> ->]; lia.
Qed.

Lemma ltb_before (a b : float) : (a <? b)%float = true <-> before (Prim2SF a) (Prim2SF b).
Proof.
  rewrite ltb_spec. unfold SFltb.
  pose proof (SFcompare_key (Prim2SF a) (Prim2SF b)) as H.
  pose proof (SFcompare_key (Prim2SF b) (Prim2SF a)) as H'.
  destruct (SFcompare (Prim2SF a) (Prim2SF b)) as [[| |]|]; split; intros K;
    try discriminate; try reflexivity; try assumption; exfalso.
  - exact (same_not_before' _ _ H K).
  - exact (before_asym _ _ K H).
  - unfold before in K. destruct H as [H | H]; rewrite H in K; [exact K|].
    destruct (key (Prim2SF a)); exact K.
Qed.

Lemma ltb_trans (a b c : float) :
  (a <? b)%float = true -> (b <? c)%float = true -> (a <? c)%float = true.
Proof. rewrite !ltb_before. apply before_trans. Qed.

Lemma ltb_asym (a b : float) : (a <? b)%float = true -> (b <? a)%float = false.
Proof.
  intros H. destruct (b <? a)%float eqn:E; [|reflexivity].
  apply ltb_before in H, E. destruct (before_asym _ _ H E).
Qed.

Lemma leb_not_ltb (a b : float) : (a <=? b)%float = true -> (b <? a)%float = false.
Proof.
  rewrite leb_spec. unfold SFleb. intros H.
  destruct (b <? a)%float eqn:E; [|reflexivity].
  apply ltb_before in E.
  pose proof (SFcompare_key (Prim2SF a) (Prim2SF b)) as K.
  destruct (SFcompare (Prim2SF a) (Prim2SF b)) as [[| |]|]; try discriminate.
  - destruct (same_not_before _ _ K E).
  - destruct (before_asym _ _ K E).
Qed.

End FloatOrderFacts.

(** ** Evaluation over the canvas *)

Module CanvasFacts.

Import PyFloat Synth Canvas.

Lemma base_all : forallb base_ok (range_from 0 512) = true.
Proof. vm_compute. reflexivity. Qed.

Lemma shade_all : forallb shade_ok (range_from 0 512) = true.
Proof. vm_compute. reflexivity. Qed.

Lemma sumsq_all :
  forallb (fun y => forallb (fun x => sumsq_ok x y) (range_from 0 512))
          (range_from 0 512) = true.
Proof. vm_compute. reflexivity. Qed.

Lemma class_all : forallb class_ok (range (k_max + 1)) = true.
Proof. vm_compute. reflexivity. Qed.

Lemma mono_all :
  forallb mono_ok (range_from (k_interior + 1) (Z.to_nat (k_rim - k_interior - 1))) = true.
Proof. vm_compute. reflexivity. Qed.

Lemma mirror_all : forallb mirror_ok (range_from 1 511) = true.
Proof. vm_compute. reflexivity. Qed.

Lemma caps_meet_all : forallb caps_meet_ok (range_from 0 512) = true.
Proof. vm_compute. reflexivity. Qed.

Lemma base_step_all : forallb base_step_ok (range_from 0 511) = true.
Proof. vm_compute. reflexivity. Qed.

End CanvasFacts.

(** ** What the evaluation says of one pixel *)

Module PixelFacts.

Import PyFloat Synth Canvas CanvasFacts.

Lemma base_canvas (y : Z) : 0 <= y < size -> base_ok y = true.
Proof. intros H. apply (range_from_forall _ _ _ base_all). unfold size in H. lia. Qed.

Lemma shade_canvas (x : Z) : 0 <= x < size -> shade_ok x = true.
Proof. intros H. apply (range_from_forall _ _ _ shade_all). unfold size in H. lia. Qed.

Lemma sumsq_canvas (x y : Z) :
  on_canvas x y -> sumsq (norm x) (norm y) = Q (sqk x y).
Proof.
  intros [Hx Hy]. unfold size in Hx, Hy.
  pose proof (range_from_forall _ _ _ sumsq_all y ltac:(lia)) as H.
  cbv beta in H.
  pose proof (range_from_forall _ _ _ H x ltac:(lia)) as H'.
  cbv beta in H'. apply FloatAxioms.Leibniz.eqb_spec. exact H'.
Qed.

Lemma dist_canvas (x y : Z) : on_canvas x y -> dist x y = D (sqk x y).
Proof.
  intros H. unfold dist, dist_of, D. rewrite (sumsq_canvas x y H). reflexivity.
Qed.

Lemma sqk_range (x y : Z) : on_canvas x y -> 0 <= sqk x y <= k_max.
Proof.
  unfold on_canvas, size, sqk, k_max. intros [Hx Hy].
  assert (Sq : forall a, -256 <= a <= 256 -> 0 <= a * a <= 65536).
  { intros a Ha. split; [apply Z.square_nonneg|].
    assert (0 <= (256 - a) * (256 + a)) by (apply Z.mul_nonneg_nonneg; lia). lia. }
  pose proof (Sq (x - 256) ltac:(lia)). pose proof (Sq (y - 256) ltac:(lia)). lia.
Qed.

Lemma class_canvas (k : Z) : 0 <= k <= k_max -> class_ok k = true.
Proof.
  intros H. apply (range_from_forall _ _ _ class_all). unfold k_max in *. lia.
Qed.

Lemma mono_canvas (k : Z) : k_interior < k < k_rim -> mono_ok k = true.
Proof.
  intros H. apply (range_from_forall _ _ _ mono_all). unfold k_interior, k_rim in *. lia.
Qed.

(** The branch of line 15 and of line 50, read off the squared distance. *)
Lemma interior_iff (x y : Z) :
  on_canvas x y -> ((dist x y <? 0.85)%float = true <-> sqk x y <= k_interior).
Proof.
  intros H. rewrite (dist_canvas x y H).
  pose proof (class_canvas _ (sqk_range x y H)) as C. unfold class_ok in C.
  destruct (sqk x y <=? k_interior) eqn:E1.
  - apply Z.leb_le in E1. tauto.
  - apply Z.leb_gt in E1. destruct (sqk x y <=? k_rim).
    + apply andb_true_iff in C. destruct C as [C _].
      apply andb_true_iff in C. destruct C as [C _].
      apply negb_true_iff in C. rewrite C. split; [discriminate | lia].
    + apply andb_true_iff in C. destruct C as [C _].
      apply negb_true_iff in C. rewrite C. split; [discriminate | lia].
Qed.

Lemma rim_iff (x y : Z) :
  on_canvas x y ->
  ((dist x y <? 0.85)%float = false /\ (dist x y <? 0.9)%float = true
   <-> k_interior < sqk x y <= k_rim).
Proof.
  intros H. rewrite (dist_canvas x y H).
  pose proof (class_canvas _ (sqk_range x y H)) as C. unfold class_ok in C.
  destruct (sqk x y <=? k_interior) eqn:E1.
  - apply Z.leb_le in E1. rewrite C. split; [intros [? _]; discriminate | lia].
  - apply Z.leb_gt in E1. destruct (sqk x y <=? k_rim) eqn:E2.
    + apply Z.leb_le in E2.
      apply andb_true_iff in C. destruct C as [C _].
      apply andb_true_iff in C. destruct C as [C1 C2].
      apply negb_true_iff in C1. rewrite C1, C2. split; [lia | auto].
    + apply Z.leb_gt in E2.
      apply andb_true_iff in C. destruct C as [_ C].
      apply negb_true_iff in C. rewrite C. split; [intros [_ ?]; discriminate | lia].
Qed.

Lemma rim_ok_canvas (k : Z) : k_interior < k <= k_rim -> rim_ok (D k) = true.
Proof.
  intros H. assert (R : 0 <= k <= k_max) by (unfold k_interior, k_rim, k_max in *; lia).
  pose proof (class_canvas k R) as C. unfold class_ok in C.
  destruct (k <=? k_interior) eqn:E1; [apply Z.leb_le in E1; lia|].
  destruct (k <=? k_rim) eqn:E2; [|apply Z.leb_gt in E2; lia].
  apply andb_true_iff in C. tauto.
Qed.

Lemma base_good (y : Z) :
  0 <= y < size -> exists c, base_color y = Some c /\ good c.
Proof.
  intros H. pose proof (base_canvas y H) as B. unfold base_ok in B.
  destruct (base_color y) as [[[[r g] b] a]|]; [|discriminate].
  exists (r, g, b, a). split; [reflexivity|]. unfold in_byte in B. simpl. lia.
Qed.

Lemma chan_value (k : float) (x : Z) :
  chan_ok k x = true ->
  exists v, to_int (k * shade (norm x))%float = Some v /\ 0 <= v < 255.
Proof.
  unfold chan_ok. destruct (to_int _) as [v|]; [|discriminate].
  intros H. exists v. split; [reflexivity | lia].
Qed.

Lemma cyl_paint_canvas (kr kg kb : float) (cap : Z * Z * Z) (upper : bool)
    (x : Z) (c : color) :
  chan_ok kr x = true -> chan_ok kg x = true -> chan_ok kb x = true ->
  exists r g b,
    to_int (kr * shade (norm x))%float = Some r
    /\ to_int (kg * shade (norm x))%float = Some g
    /\ to_int (kb * shade (norm x))%float = Some b
    /\ good (r, g, b, 255)
    /\ cyl_paint kr kg kb cap upper (norm x) c
       = Some (if upper then let '(r', g', b') := cap in (r', g', b', alpha_of c)
               else (r, g, b, alpha_of c)).
Proof.
  intros Hr Hg Hb.
  destruct (chan_value _ _ Hr) as (r & Er & Rr).
  destruct (chan_value _ _ Hg) as (g & Eg & Rg).
  destruct (chan_value _ _ Hb) as (b & Eb & Rb).
  exists r, g, b. repeat split; try assumption; try lia.
  unfold cyl_paint. cbv zeta. rewrite Er, Eg, Eb. simpl.
  destruct upper; [destruct cap as [[r' g'] b']|]; reflexivity.
Qed.

Lemma shade_chans (x : Z) :
  0 <= x < size ->
  (chan_ok 40 x = true /\ chan_ok 180 x = true /\ chan_ok 100 x = true)
  /\ (chan_ok 60 x = true /\ chan_ok 140 x = true /\ chan_ok 220 x = true).
Proof.
  intros H. pose proof (shade_canvas x H) as S. unfold shade_ok in S.
  repeat (apply andb_true_iff in S; destruct S as [S ?]). tauto.
Qed.

(** The top stage (lines 29-33) and the bottom stage (lines 35-39) keep a
    good colour good. *)
Lemma top_stage_good (test upper : bool) (x : Z) (c : color) :
  0 <= x < size -> good c ->
  exists c', (if test then top_paint upper (norm x) c else Some c) = Some c' /\ good c'.
Proof.
  intros H G. destruct test; [|exists c; auto].
  destruct (shade_chans x H) as [(Hr & Hg & Hb) _].
  destruct (cyl_paint_canvas 40 180 100 (60, 220, 130) upper x c Hr Hg Hb)
    as (r & g & b & _ & _ & _ & G' & E).
  unfold top_paint. rewrite E.
  destruct c as [[[cr cg] cb] ca]. simpl in G. destruct G as (_ & _ & _ & ->).
  destruct upper; eexists; (split; [reflexivity|]); simpl; [lia | exact G'].
Qed.

Lemma bot_stage_good (test upper : bool) (x : Z) (c : color) :
  0 <= x < size -> good c ->
  exists c', (if test then bot_paint upper (norm x) c else Some c) = Some c' /\ good c'.
Proof.
  intros H G. destruct test; [|exists c; auto].
  destruct (shade_chans x H) as [_ (Hr & Hg & Hb)].
  destruct (cyl_paint_canvas 60 140 220 (80, 170, 255) upper x c Hr Hg Hb)
    as (r & g & b & _ & _ & _ & G' & E).
  unfold bot_paint. rewrite E.
  destruct c as [[[cr cg] cb] ca]. simpl in G. destruct G as (_ & _ & _ & ->).
  destruct upper; eexists; (split; [reflexivity|]); simpl; [lia | exact G'].
Qed.

(** The interior branch on the canvas: the three fallible stages succeed, and
    the two red tests are applied to the colour the bottom stage leaves. *)
Lemma interior_canvas (cy1 cy2 h : float) (x y : Z) :
  on_canvas x y ->
  exists c0 c1 c2,
    base_color y = Some c0 /\ good c0
    /\ (if cyl_test cy1 h (norm x) (norm y)
        then top_paint (cap_upper cy1 h (norm x) (norm y)) (norm x) c0
        else Some c0) = Some c1 /\ good c1
    /\ (if cyl_test cy2 h (norm x) (norm y)
        then bot_paint (cap_upper cy2 h (norm x) (norm y)) (norm x) c1
        else Some c1) = Some c2 /\ good c2
    /\ interior_with cy1 cy2 h (norm x) (norm y) y
       = Some (paint_red (arrow_test cy2 h (norm x) (norm y))
                 (paint_red (connector_test cy1 cy2 h (norm x) (norm y)) c2)).
Proof.
  intros [Hx Hy].
  destruct (base_good y Hy) as (c0 & E0 & G0).
  destruct (top_stage_good (cyl_test cy1 h (norm x) (norm y))
              (cap_upper cy1 h (norm x) (norm y)) x c0 Hx G0) as (c1 & E1 & G1).
  destruct (bot_stage_good (cyl_test cy2 h (norm x) (norm y))
              (cap_upper cy2 h (norm x) (norm y)) x c1 Hx G1) as (c2 & E2 & G2).
  exists c0, c1, c2. repeat split; try assumption.
  unfold interior_with. rewrite E0. simpl. rewrite E1. simpl. rewrite E2. reflexivity.
Qed.

Lemma paint_red_alpha (t : bool) (c : color) : alpha_of (paint_red t c) = alpha_of c.
Proof. destruct t, c as [[[r g] b] a]; reflexivity. Qed.

Lemma good_alpha (c : color) : good c -> alpha_of c = 255.
Proof. destruct c as [[[r g] b] a]. simpl. tauto. Qed.

End PixelFacts.

(** ** The branches of one pixel *)

Module BranchFacts.

Import PyFloat Synth Canvas CanvasFacts PixelFacts FloatOrderFacts.

(** Line 41 with the constants of lines 19-20 asks for [ny > 0.05] and
    [ny < -0.05] at once. *)
Lemma connector_never (nx ny : float) :
  connector_test cy1 cy2 cyl_height nx ny = false.
Proof.
  unfold connector_test, gtb.
  destruct (abs nx <? 0.08)%float; cbn [andb]; [| reflexivity].
  destruct (cy1 + cyl_height + 0.05 <? ny)%float eqn:A; cbn [andb]; [| reflexivity].
  destruct (ny <? cy2 - cyl_height - 0.05)%float eqn:B; [| reflexivity].
  pose proof (ltb_trans _ _ _ A B) as C. vm_compute in C. discriminate C.
Qed.

Lemma outside_branch (d : float) :
  (0.9 <=? d)%float = true -> (d <? 0.85)%float = false /\ (d <? 0.9)%float = false.
Proof.
  intros H. pose proof (leb_not_ltb _ _ H) as N. split; [|exact N].
  destruct (d <? 0.85)%float eqn:E; [|reflexivity].
  assert (L : (0.85 <? 0.9)%float = true) by reflexivity.
  rewrite (ltb_trans d 0.85 0.9 E L) in N. discriminate N.
Qed.

Lemma rim_branch (d : float) :
  (0.85 <=? d)%float = true -> (d <? 0.85)%float = false.
Proof. apply leb_not_ltb. Qed.

Lemma pixel_interior (x y : Z) :
  (dist x y <? 0.85)%float = true ->
  pixel x y = interior_with cy1 cy2 cyl_height (norm x) (norm y) y.
Proof.
  intros H. unfold pixel, pixel_with. cbv zeta.
  fold (dist x y). rewrite H. reflexivity.
Qed.

Lemma pixel_rim (x y : Z) :
  (dist x y <? 0.85)%float = false -> (dist x y <? 0.9)%float = true ->
  pixel x y = rim_color (dist x y).
Proof.
  intros H1 H2. unfold pixel, pixel_with. cbv zeta.
  fold (dist x y). rewrite H1, H2. reflexivity.
Qed.

Lemma pixel_outside (x y : Z) :
  (dist x y <? 0.85)%float = false -> (dist x y <? 0.9)%float = false ->
  pixel x y = Some (0, 0, 0, 0).
Proof.
  intros H1 H2. unfold pixel, pixel_with. cbv zeta.
  fold (dist x y). rewrite H1, H2. reflexivity.
Qed.

(** The rim colour of a canvas pixel: defined, bytes, never red, and its
    alpha is [int(255 * af)]. *)
Lemma rim_canvas (x y : Z) :
  on_canvas x y ->
  (dist x y <? 0.85)%float = false -> (dist x y <? 0.9)%float = true ->
  exists r g b a,
    pixel x y = Some (r, g, b, a)
    /\ rim_alpha (dist x y) = Some a
    /\ 0 <= r < 255 /\ 0 <= g < 256 /\ 0 <= b < 256 /\ 0 <= a < 255.
Proof.
  intros C H1 H2. rewrite (pixel_rim x y H1 H2).
  pose proof (proj1 (rim_iff x y C) (conj H1 H2)) as K.
  pose proof (rim_ok_canvas _ K) as R. rewrite <- (dist_canvas x y C) in R.
  unfold rim_ok in R. unfold rim_alpha.
  destruct (rim_color (dist x y)) as [[[[r g] b] a]|] eqn:E; [|discriminate R].
  exists r, g, b, a.
  split; [reflexivity|]. split; [|lia].
  unfold rim_color in E. cbv zeta in E.
  destruct (to_int (100 * af (dist x y))%float); [simpl in E | discriminate E].
  destruct (to_int (80 * af (dist x y))%float); [simpl in E | discriminate E].
  destruct (to_int (180 * af (dist x y))%float); [simpl in E | discriminate E].
  destruct (to_int (255 * af (dist x y))%float); [simpl in E | discriminate E].
  congruence.
Qed.

(** The interior colour of a canvas pixel. *)
Lemma interior_result (x y : Z) :
  on_canvas x y -> (dist x y <? 0.85)%float = true ->
  exists c2,
    good c2
    /\ pixel x y = Some (paint_red (arrow x y) c2).
Proof.
  intros C H. rewrite (pixel_interior x y H).
  destruct (interior_canvas cy1 cy2 cyl_height x y C)
    as (c0 & c1 & c2 & _ & _ & _ & _ & _ & G2 & E).
  exists c2. split; [exact G2|]. rewrite E, connector_never. reflexivity.
Qed.

Lemma paint_red_bytes (t : bool) (c : color) :
  good c ->
  let '(r, g, b, a) := paint_red t c in
  0 <= r < 256 /\ 0 <= g < 256 /\ 0 <= b < 256 /\ a = 255.
Proof.
  destruct c as [[[r g] b] a], t; simpl; lia.
Qed.

(** Every iteration of the inner loop yields four bytes. *)
Lemma pixel_total (x y : Z) :
  on_canvas x y ->
  exists r g b a,
    pixel x y = Some (r, g, b, a)
    /\ 0 <= r < 256 /\ 0 <= g < 256 /\ 0 <= b < 256 /\ 0 <= a < 256.
Proof.
  intros C.
  destruct (dist x y <? 0.85)%float eqn:H1.
  - destruct (interior_result x y C H1) as (c2 & G & E).
    pose proof (paint_red_bytes (arrow x y) c2 G) as B.
    destruct (paint_red (arrow x y) c2) as [[[r g] b] a].
    exists r, g, b, a. split; [exact E | lia].
  - destruct (dist x y <? 0.9)%float eqn:H2.
    + destruct (rim_canvas x y C H1 H2) as (r & g & b & a & E & _ & R).
      exists r, g, b, a. split; [exact E | lia].
    + exists 0, 0, 0, 0. split; [apply pixel_outside; assumption | lia].
Qed.

(** Along the rim the distance grows with the squared distance and the alpha
    falls. *)
Lemma mono_step (k : Z) :
  k_interior < k < k_rim ->
  (D k <? D (k + 1))%float = true
  /\ exists a a', rim_alpha (D k) = Some a /\ rim_alpha (D (k + 1)) = Some a' /\ a' <= a.
Proof.
  intros H. pose proof (mono_canvas k H) as M. unfold mono_ok in M.
  apply andb_true_iff in M. destruct M as [M1 M2]. split; [exact M1|].
  destruct (rim_alpha (D k)) as [a|]; [|discriminate M2].
  destruct (rim_alpha (D (k + 1))) as [a'|]; [|discriminate M2].
  exists a, a'. repeat split. apply Z.leb_le, M2.
Qed.

Lemma mono_chain (n : nat) (k : Z) :
  k_interior < k -> k + 1 + Z.of_nat n <= k_rim ->
  (D k <? D (k + 1 + Z.of_nat n))%float = true
  /\ exists a a',
       rim_alpha (D k) = Some a /\ rim_alpha (D (k + 1 + Z.of_nat n)) = Some a'
       /\ a' <= a.
Proof.
  induction n as [|n IH]; intros Hk Hn.
  - replace (k + 1 + Z.of_nat 0) with (k + 1) by lia. apply mono_step. lia.
  - destruct (IH Hk ltac:(lia)) as (L & a & a' & Ea & Ea' & Le).
    destruct (mono_step (k + 1 + Z.of_nat n) ltac:(lia)) as (L' & b & b' & Eb & Eb' & Le').
    replace (k + 1 + Z.of_nat (S n)) with (k + 1 + Z.of_nat n + 1) by lia.
    split; [exact (ltb_trans _ _ _ L L')|].
    exists a, b'. repeat split; try assumption.
    rewrite Ea' in Eb. injection Eb as <-. lia.
Qed.

Lemma rim_mono (k k' : Z) :
  k_interior < k -> k < k' -> k' <= k_rim ->
  (D k <? D k')%float = true
  /\ exists a a', rim_alpha (D k) = Some a /\ rim_alpha (D k') = Some a' /\ a' <= a.
Proof.
  intros H1 H2 H3.
  replace k' with (k + 1 + Z.of_nat (Z.to_nat (k' - k - 1))) by lia.
  apply mono_chain; lia.
Qed.

End BranchFacts.

(** ** The encoder *)

Module PngFacts.

Import Synth Canvas BranchFacts Png.

Lemma pack_I (v : Z) : 0 <= v < 2 ^ 32 -> pack [fmt_I] [v] = Some (be32 v).
Proof.
  intros H. unfold pack, pack1.
  replace ((0 <=? v) && (v <? 2 ^ 32)) with true
    by (symmetry; apply andb_true_iff; split; [apply Z.leb_le | apply Z.ltb_lt]; lia).
  reflexivity.
Qed.

Lemma land_u32 (c : Z) : 0 <= Z.land c 0xffffffff < 2 ^ 32.
Proof.
  change 0xffffffff with (Z.ones 32). rewrite Z.land_ones by lia.
  apply Z.mod_pos_bound. lia.
Qed.

Lemma chunk_framed (t d : list Z) :
  len d < 2 ^ 32 -> chunk t d = Some (framed t d).
Proof.
  intros H. unfold chunk, framed. cbv zeta.
  rewrite pack_I by (unfold len in *; lia). cbn [bind].
  rewrite pack_I by apply land_u32. cbn [bind].
  rewrite <- app_assoc. reflexivity.
Qed.

Lemma ihdr_value : ihdr = Some [0; 0; 2; 0; 0; 0; 2; 0; 8; 6; 0; 0; 0].
Proof. reflexivity. Qed.

Lemma In_range_from_inv (v lo : Z) (n : nat) :
  In v (range_from lo n) -> lo <= v < lo + Z.of_nat n.
Proof.
  revert lo. induction n as [|n IH]; intros lo H; simpl in H.
  - destruct H.
  - destruct H as [<- | H]; [lia|]. apply IH in H. lia.
Qed.

Lemma In_range (v n : Z) : In v (range n) -> 0 <= v < n.
Proof. unfold range. intros H. apply In_range_from_inv in H. lia. Qed.

(** The inner loop never raises, and what it appends are bytes. *)
Lemma row_of_total (y : Z) (xs : list Z) :
  0 <= y < size -> (forall x, In x xs -> 0 <= x < size) ->
  exists row,
    row_of y xs = Some row
    /\ forallb (fun v => (0 <=? v) && (v <? 256)) row = true.
Proof.
  intros Hy. induction xs as [|x xs IH]; intros Hxs.
  - exists []. split; reflexivity.
  - destruct IH as (rest & E & B); [intros x' Hx'; apply Hxs; right; exact Hx'|].
    destruct (pixel_total x y) as (r & g & b & a & P & Rr & Rg & Rb & Ra).
    { split; [apply Hxs; left; reflexivity | exact Hy]. }
    exists (r :: g :: b :: a :: rest). simpl. rewrite P. simpl. rewrite E. simpl.
    split; [reflexivity|]. rewrite B.
    repeat (apply andb_true_iff; split);
      first [apply Z.leb_le; lia | apply Z.ltb_lt; lia | reflexivity].
Qed.

Lemma rows_of_total (ys xs : list Z) :
  (forall y, In y ys -> 0 <= y < size) -> (forall x, In x xs -> 0 <= x < size) ->
  exists rows, rows_of ys xs = Some rows.
Proof.
  intros Hys Hxs. induction ys as [|y ys IH].
  - exists []. reflexivity.
  - destruct IH as (rest & E); [intros y' Hy'; apply Hys; right; exact Hy'|].
    destruct (row_of_total y xs) as (row & R & B);
      [apply Hys; left; reflexivity | exact Hxs |].
    exists ((0 :: row) :: rest). simpl. rewrite R. simpl.
    unfold bytes. simpl. rewrite B. simpl. rewrite E. reflexivity.
Qed.

(** Line 59 is reached with a value. *)
Lemma raw_total : exists r, raw = Some r.
Proof.
  destruct (rows_of_total (range size) (range size)) as (rows & E);
    try (intros v Hv; apply In_range; exact Hv).
  exists (List.concat rows). unfold raw, pixels. rewrite E. reflexivity.
Qed.

Lemma png_stream (zlib_compress : list Z -> Z -> list Z) (r h : list Z) :
  raw = Some r -> ihdr = Some h -> len (zlib_compress r 9) < 2 ^ 32 ->
  png zlib_compress
  = Some (signature ++ framed IHDR h ++ framed IDAT (zlib_compress r 9)
          ++ framed IEND []).
Proof.
  intros Er Eh Hl. unfold png. rewrite Er, Eh. cbn [bind].
  rewrite ihdr_value in Eh. injection Eh as <-.
  rewrite (chunk_framed IHDR) by (vm_compute; reflexivity). cbn [bind].
  rewrite (chunk_framed IDAT) by exact Hl. cbn [bind].
  rewrite (chunk_framed IEND) by (vm_compute; reflexivity). reflexivity.
Qed.

End PngFacts.

(** * Further properties of the synthesizer *)

Module SynthMore.

Import PyFloat Synth Canvas CanvasFacts.
Import FloatOrderFacts PixelFacts BranchFacts.

Lemma mirror_canvas (x : Z) :
  1 <= x < size ->
  abs (norm (size - x)) = abs (norm x)
  /\ (norm (size - x) * norm (size - x))%float = (norm x * norm x)%float
  /\ pow2 (norm (size - x) / cyl_width) = pow2 (norm x / cyl_width).
Proof.
  intros H. pose proof (range_from_forall _ _ _ mirror_all x) as M.
  unfold size in H. specialize (M ltac:(lia)). unfold mirror_ok in M. cbv zeta in M.
  apply andb_true_iff in M. destruct M as [M M3].
  apply andb_true_iff in M. destruct M as [M1 M2].
  apply FloatAxioms.Leibniz.eqb_spec in M1, M2, M3. auto.
Qed.

Lemma caps_meet_canvas (y : Z) :
  0 <= y < size ->
  (norm y - cy1 - cyl_height)%float = (norm y - cy2 + cyl_height)%float.
Proof.
  intros H. pose proof (range_from_forall _ _ _ caps_meet_all y) as M.
  unfold size in H. specialize (M ltac:(lia)).
  apply FloatAxioms.Leibniz.eqb_spec in M. exact M.
Qed.

Lemma base_step_canvas (y : Z) : 0 <= y < size - 1 -> base_step_ok y = true.
Proof.
  intros H. apply (range_from_forall _ _ _ base_step_all). unfold size in H. lia.
Qed.

(** The colour of an interior pixel, stage by stage. *)
Lemma interior_table (x y : Z) :
  on_canvas x y ->
  (dist x y <? 0.85)%float = true ->
  exists r0 g0 b0 r1 g1 b1 r2 g2 b2,
    base_color y = Some (r0, g0, b0, 255)
    /\ to_int (40 * shade (norm x))%float = Some r1
    /\ to_int (180 * shade (norm x))%float = Some g1
    /\ to_int (100 * shade (norm x))%float = Some b1
    /\ to_int (60 * shade (norm x))%float = Some r2
    /\ to_int (140 * shade (norm x))%float = Some g2
    /\ to_int (220 * shade (norm x))%float = Some b2
    /\ pixel x y
       = Some (if arrow x y then (255, 100, 100, 255)
               else if bot_test x y
                    then (if top_e2 x y then (80, 170, 255, 255) else (r2, g2, b2, 255))
               else if top_test x y
                    then (if top_e1 x y then (60, 220, 130, 255) else (r1, g1, b1, 255))
               else (r0, g0, b0, 255)).
Proof.
  intros C I. rewrite (pixel_interior x y I).
  destruct (interior_canvas cy1 cy2 cyl_height x y C)
    as (k0 & k1 & k2 & E0 & G0 & E1 & G1 & E2 & G2 & E).
  rewrite E, connector_never. cbn [paint_red].
  destruct (shade_chans x (proj1 C)) as [(Hr1 & Hg1 & Hb1) (Hr2 & Hg2 & Hb2)].
  destruct (cyl_paint_canvas 40 180 100 (60, 220, 130)
              (cap_upper cy1 cyl_height (norm x) (norm y)) x k0 Hr1 Hg1 Hb1)
    as (r1 & g1 & b1 & Er1 & Eg1 & Eb1 & _ & P1).
  destruct (cyl_paint_canvas 60 140 220 (80, 170, 255)
              (cap_upper cy2 cyl_height (norm x) (norm y)) x k1 Hr2 Hg2 Hb2)
    as (r2 & g2 & b2 & Er2 & Eg2 & Eb2 & _ & P2).
  unfold top_paint in E1. unfold bot_paint in E2. rewrite P1 in E1. rewrite P2 in E2.
  destruct k0 as [[[r0 g0] b0] a0]. pose proof (good_alpha _ G0) as A0.
  cbn [alpha_of] in A0. subst a0.
  exists r0, g0, b0, r1, g1, b1, r2, g2, b2.
  repeat (split; [assumption|]).
  unfold arrow, bot_test, top_test, top_e1, top_e2.
  rewrite (good_alpha k1 G1) in E2. cbn [alpha_of] in E1.
  destruct (arrow_test cy2 cyl_height (norm x) (norm y)).
  - destruct k2 as [[[r g] b] a]. pose proof (good_alpha _ G2) as A2.
    cbn [alpha_of] in A2. subst a. reflexivity.
  - cbn [paint_red].
    destruct (cyl_test cy2 cyl_height (norm x) (norm y)).
    + injection E2 as <-.
      destruct (cap_upper cy2 cyl_height (norm x) (norm y)); reflexivity.
    + injection E2 as <-.
      destruct (cyl_test cy1 cyl_height (norm x) (norm y)).
      * injection E1 as <-.
        destruct (cap_upper cy1 cyl_height (norm x) (norm y)); reflexivity.
      * injection E1 as <-. reflexivity.
Qed.

End SynthMore.

(** ** The scanlines and the encoder *)

Module LayoutFacts.

Import Synth Canvas Png PngFacts.

Lemma Some_inj {A : Type} (a b : A) : Some a = Some b -> a = b.
Proof. intros H. injection H as ->. reflexivity. Qed.

Lemma range_from_length (lo : Z) (n : nat) : List.length (range_from lo n) = n.
Proof. revert lo. induction n as [|n IH]; intros lo; simpl; [|rewrite IH]; reflexivity. Qed.

Lemma row_of_length (y : Z) (xs row : list Z) :
  row_of y xs = Some row -> List.length row = (4 * List.length xs)%nat.
Proof.
  revert row. induction xs as [|x xs IH]; intros row H; simpl in H.
  - injection H as <-. reflexivity.
  - apply bind_Some in H. destruct H as ([[[r g] b] a] & _ & H).
    apply bind_Some in H. destruct H as (rest & R & H).
    injection H as <-. simpl. rewrite (IH rest R). lia.
Qed.

Lemma bytes_Some (l l' : list Z) :
  bytes l = Some l' -> l' = l /\ Forall (fun v => 0 <= v < 256) l.
Proof.
  unfold bytes.
  destruct (forallb (fun v => (0 <=? v) && (v <? 256)) l) eqn:F; [|discriminate].
  intros [= <-]. split; [reflexivity|].
  apply Forall_forall. intros v Hv. rewrite forallb_forall in F.
  specialize (F v Hv). lia.
Qed.

Lemma rows_of_layout (ys xs : list Z) (rows : list (list Z)) :
  rows_of ys xs = Some rows ->
  List.length rows = List.length ys
  /\ Forall (fun l => exists row, l = 0 :: row
                        /\ List.length row = (4 * List.length xs)%nat
                        /\ Forall (fun v => 0 <= v < 256) row) rows.
Proof.
  revert rows. induction ys as [|y ys IH]; intros rows H; simpl in H.
  - injection H as <-. split; [reflexivity | constructor].
  - apply bind_Some in H. destruct H as (row & R & H).
    apply bind_Some in H. destruct H as (line & B & H).
    apply bind_Some in H. destruct H as (rest & E & H).
    injection H as <-. destruct (IH rest E) as (L & F).
    apply bytes_Some in B. destruct B as (-> & FB).
    split; [simpl; rewrite L; reflexivity|].
    constructor; [|exact F].
    exists row. split; [reflexivity|]. split; [exact (row_of_length y xs row R)|].
    inversion FB; assumption.
Qed.

Lemma concat_uniform (m : nat) (rows : list (list Z)) :
  Forall (fun l => List.length l = m) rows ->
  List.length (List.concat rows) = (List.length rows * m)%nat.
Proof.
  induction 1 as [|l rows Hl _ IH]; simpl; [reflexivity|].
  rewrite length_app, IH, Hl. reflexivity.
Qed.

Lemma pack_I_None (v : Z) : 2 ^ 32 <= v -> pack [fmt_I] [v] = None.
Proof.
  intros H. unfold pack, pack1.
  replace (v <? 2 ^ 32) with false by (symmetry; apply Z.ltb_ge; exact H).
  rewrite andb_false_r. reflexivity.
Qed.

Lemma be32_value (v : Z) :
  0 <= v < 2 ^ 32 ->
  exists b0 b1 b2 b3,
    be32 v = [b0; b1; b2; b3]
    /\ 0 <= b0 < 256 /\ 0 <= b1 < 256 /\ 0 <= b2 < 256 /\ 0 <= b3 < 256
    /\ b0 * 2 ^ 24 + b1 * 2 ^ 16 + b2 * 2 ^ 8 + b3 = v.
Proof.
  intros H. unfold be32. do 4 eexists. split; [reflexivity|].
  change 255 with (Z.ones 8). rewrite !Z.land_ones, !Z.shiftr_div_pow2 by lia.
  change (2 ^ 8) with 256. change (2 ^ 16) with 65536.
  change (2 ^ 24) with 16777216. change (2 ^ 32) with 4294967296 in H.
  repeat split; try (apply Z.mod_pos_bound; lia).
  Z.to_euclidean_division_equations. lia.
Qed.

Lemma lxor_u32 (a b : Z) :
  0 <= a < 2 ^ 32 -> 0 <= b < 2 ^ 32 -> 0 <= Z.lxor a b < 2 ^ 32.
Proof.
  intros Ha Hb.
  assert (E : Z.lxor a b = Z.lxor a b mod 2 ^ 32).
  { apply Z.bits_inj'. intros i Hi.
    destruct (Z.lt_ge_cases i 32) as [L | G].
    - rewrite Z.mod_pow2_bits_low by lia. reflexivity.
    - rewrite Z.mod_pow2_bits_high by lia. rewrite Z.lxor_spec.
      rewrite <- (Z.mod_small a (2 ^ 32)), <- (Z.mod_small b (2 ^ 32)) by lia.
      rewrite !Z.mod_pow2_bits_high by lia. reflexivity. }
  rewrite E. apply Z.mod_pos_bound. lia.
Qed.

Lemma crc_shift_u32 (c : Z) : 0 <= c < 2 ^ 32 -> 0 <= crc_shift c < 2 ^ 32.
Proof.
  intros H. unfold crc_shift.
  assert (S1 : 0 <= Z.shiftr c 1 < 2 ^ 32).
  { rewrite Z.shiftr_div_pow2 by lia. change (2 ^ 1) with 2.
    change (2 ^ 32) with 4294967296 in *. Z.to_euclidean_division_equations. lia. }
  destruct (Z.testbit c 0); [|exact S1].
  apply lxor_u32; [exact S1 | vm_compute; split; [discriminate | reflexivity]].
Qed.

Lemma crc_byte_u32 (c b : Z) :
  0 <= c < 2 ^ 32 -> 0 <= b < 256 -> 0 <= crc_byte c b < 2 ^ 32.
Proof.
  intros Hc Hb. unfold crc_byte.
  assert (X : 0 <= Z.lxor c b < 2 ^ 32).
  { apply lxor_u32; [exact Hc|]. change (2 ^ 32) with 4294967296. lia. }
  revert X. generalize (Z.lxor c b) as v. intros v Hv.
  cbn [Nat.iter nat_rect]. unfold Nat.iter. simpl nat_rect.
  repeat apply crc_shift_u32. exact Hv.
Qed.

Lemma crc_fold_u32 (data : list Z) (c : Z) :
  Forall (fun b => 0 <= b < 256) data -> 0 <= c < 2 ^ 32 ->
  0 <= fold_left crc_byte data c < 2 ^ 32.
Proof.
  intros F. revert c. induction F as [|b data Hb _ IH]; intros c Hc; simpl.
  - exact Hc.
  - apply IH, crc_byte_u32; assumption.
Qed.

Lemma chunk_oversize (t d : list Z) : 2 ^ 32 <= len d -> chunk t d = None.
Proof.
  intros G. unfold chunk. cbv zeta. rewrite (pack_I_None _ G). reflexivity.
Qed.

Lemma framed_length (t d : list Z) : len (framed t d) = len t + len d + 8.
Proof.
  unfold framed, len. rewrite !length_app. cbn [be32 List.length]. lia.
Qed.

Lemma png_oversize (zlib_compress : list Z -> Z -> list Z) (r : list Z) :
  raw = Some r -> 2 ^ 32 <= len (zlib_compress r 9) -> png zlib_compress = None.
Proof.
  intros Er G. unfold png. rewrite Er, ihdr_value. cbn [bind].
  rewrite (chunk_framed IHDR) by (vm_compute; reflexivity). cbn [bind].
  rewrite (chunk_oversize IDAT _ G). reflexivity.
Qed.

(** The scanlines: the outer loop yields a value, of the expected shape. *)
Lemma pixels_layout :
  exists rows,
    pixels = Some rows /\ raw = Some (List.concat rows)
    /\ List.length rows = Z.to_nat size
    /\ Forall (fun l => exists row, l = 0 :: row
                          /\ List.length row = (4 * Z.to_nat size)%nat
                          /\ Forall (fun v => 0 <= v < 256) row) rows.
Proof.
  destruct (rows_of_total (range size) (range size)) as (rows & E);
    try (intros v Hv; apply In_range; exact Hv).
  exists rows. split; [unfold pixels; exact E|].
  split; [unfold raw, pixels; rewrite E; reflexivity|].
  destruct (rows_of_layout (range size) (range size) rows E) as (L & F).
  unfold range in L, F. rewrite range_from_length in L, F. split; assumption.
Qed.

End LayoutFacts.

(** * The claims *)

Import PyFloat Synth Canvas Png.
Import FloatOrderFacts CanvasFacts PixelFacts BranchFacts PngFacts SynthMore LayoutFacts.

(** C1, as the code has it: the pixel at the canvas centre (256, 256)
    normalizes to [nx = 0], [ny = 0] with [dist = 0] and takes the interior
    branch; it is in neither cylinder rectangle, not in the top cylinder's
    upper cap, not in the bottom cylinder's lower cap, not in the connector and
    not in the arrowhead, and its base gradient colour is (50, 35, 120, 255).
    It is inside the top cylinder's lower cap and the bottom cylinder's upper
    cap, both centred on [ny = 0], so its final value is the bottom cylinder's
    cap colour (80, 170, 255, 255). *)
Theorem C1_center_pixel :
  norm 256 = 0%float
  /\ dist 256 256 = 0%float
  /\ (dist 256 256 <? 0.85)%float = true
  /\ in_top_cyl 256 256 = false /\ in_bot_cyl 256 256 = false
  /\ top_e1 256 256 = false /\ bot_e2 256 256 = false
  /\ connector 256 256 = false /\ arrow 256 256 = false
  /\ base_color 256 = Some (50, 35, 120, 255)
  /\ bot_e1 256 256 = true /\ top_e2 256 256 = true
  /\ pixel 256 256 = Some (80, 170, 255, 255).
Proof. vm_compute. repeat split. Qed.

(** C1 as stated fails: the centre pixel lies inside two caps and its final
    value is not the base gradient colour. *)
Lemma C1_center_not_base :
  bot_e1 256 256 = true /\ top_e2 256 256 = true
  /\ pixel 256 256 = Some (80, 170, 255, 255)
  /\ pixel 256 256 <> Some (50, 35, 120, 255).
Proof. vm_compute. repeat split. discriminate. Qed.

(** C3: with [cy1 = -0.25], [cy2 = 0.25], [cyl_height = 0.25] the connector
    test is false for every pair of coordinates, so for every pixel of the
    canvas; and a canvas pixel whose colour is red (255, 100, 100) is an
    interior pixel that passed the arrowhead test. *)
Theorem C3_connector_unreachable (x y : Z) :
  on_canvas x y ->
  (forall nx ny : float, connector_test cy1 cy2 cyl_height nx ny = false)
  /\ connector x y = false
  /\ forall c, pixel x y = Some c -> rgb_of c = red ->
       (dist x y <? 0.85)%float = true /\ arrow x y = true.
Proof.
  intros C. split; [exact connector_never|]. split; [apply connector_never|].
  intros c P R.
  destruct (dist x y <? 0.85)%float eqn:H1.
  - split; [reflexivity|].
    destruct (interior_result x y C H1) as (k2 & G & E).
    rewrite E in P. injection P as <-.
    destruct (arrow x y); [reflexivity|].
    destruct k2 as [[[r g] b] a]. simpl in G, R. unfold red in R.
    injection R as -> _ _. lia.
  - exfalso. destruct (dist x y <? 0.9)%float eqn:H2.
    + destruct (rim_canvas x y C H1 H2) as (r & g & b & a & E & _ & Rr & _).
      rewrite E in P. injection P as <-. simpl in R. unfold red in R.
      injection R as -> _ _. lia.
    + rewrite (pixel_outside x y H1 H2) in P. injection P as <-.
      simpl in R. unfold red in R. discriminate R.
Qed.

Lemma C3_connector_unreachable_witness :
  connector 256 248 = false
  /\ (pixel 256 248 = Some (255, 100, 100, 255) -> arrow 256 248 = true).
Proof.
  destruct (C3_connector_unreachable 256 248) as (_ & N & A);
    [unfold on_canvas, size; lia|].
  split; [exact N|]. intros P. exact (proj2 (A _ P eq_refl)).
Defined.

(** C4, as the code has it: for every interior pixel that passes both the
    top-cylinder and the bottom-cylinder membership test, the bottom stage
    overwrites the top stage's colour without blending, and the arrowhead test
    that follows overwrites the bottom stage's: the final colour is red
    (255, 100, 100) if the pixel passes the arrowhead test, else (80, 170, 255)
    if it is inside the bottom cylinder's upper cap, else
    ([int(60*shade)], [int(140*shade)], [int(220*shade)]). *)
Theorem C4_bottom_then_arrow (x y : Z) :
  on_canvas x y ->
  (dist x y <? 0.85)%float = true ->
  top_test x y = true ->
  bot_test x y = true ->
  exists r g b,
    to_int (60 * shade (norm x))%float = Some r
    /\ to_int (140 * shade (norm x))%float = Some g
    /\ to_int (220 * shade (norm x))%float = Some b
    /\ pixel x y
       = Some (if arrow x y then (255, 100, 100, 255)
               else if top_e2 x y then (80, 170, 255, 255)
               else (r, g, b, 255)).
Proof.
  intros C I T B. rewrite (pixel_interior x y I).
  destruct (interior_canvas cy1 cy2 cyl_height x y C)
    as (k0 & k1 & k2 & _ & _ & _ & G1 & E2 & _ & E).
  rewrite E, connector_never. cbn [paint_red].
  unfold bot_test in B. rewrite B in E2.
  destruct (shade_chans x (proj1 C)) as [_ (Hr & Hg & Hb)].
  destruct (cyl_paint_canvas 60 140 220 (80, 170, 255)
              (cap_upper cy2 cyl_height (norm x) (norm y)) x k1 Hr Hg Hb)
    as (r & g & b & Er & Eg & Eb & _ & P).
  unfold bot_paint in E2. rewrite P in E2. injection E2 as <-.
  rewrite (good_alpha k1 G1).
  exists r, g, b. repeat split; try assumption.
  unfold arrow, top_e2.
  destruct (arrow_test cy2 cyl_height (norm x) (norm y)),
    (cap_upper cy2 cyl_height (norm x) (norm y)); reflexivity.
Qed.

Lemma C4_bottom_then_arrow_witness :
  pixel 256 256 = Some (80, 170, 255, 255).
Proof.
  destruct (C4_bottom_then_arrow 256 256) as (r & g & b & _ & _ & _ & E);
    [unfold on_canvas, size; lia | reflexivity | reflexivity | reflexivity |].
  exact E.
Defined.

(** C4 as stated fails: pixel (256, 248) is interior, passes both membership
    tests and is inside the bottom cylinder's upper cap, yet its final colour is
    the arrowhead's red, not (80, 170, 255). *)
Lemma C4_arrow_overrides_bottom :
  (dist 256 248 <? 0.85)%float = true
  /\ top_test 256 248 = true /\ bot_test 256 248 = true
  /\ top_e2 256 248 = true
  /\ pixel 256 248 = Some (255, 100, 100, 255)
  /\ pixel 256 248 <> Some (80, 170, 255, 255).
Proof. vm_compute. repeat split. discriminate. Qed.

(** C5, as the code has it: for every canvas pixel in the rim band
    [0.85 <= dist < 0.9] the output alpha is [int(255 * af)] with
    [af = (0.9 - dist) / 0.05] and lies between 0 and 254; of two rim pixels
    the one at the larger (or equal) distance never has the larger alpha; the
    formula gives 0 at [dist = 0.9]; the pixel (480, 256) at [dist = 0.875] has
    alpha 127; and just inside the 0.85 boundary the alpha is 254, close to
    255 and not to 255/18. *)
Theorem C5_rim_alpha :
  (forall x y, on_canvas x y ->
     (0.85 <=? dist x y)%float = true -> (dist x y <? 0.9)%float = true ->
     exists r g b a,
       pixel x y = Some (r, g, b, a)
       /\ to_int (255 * ((0.9 - dist x y) / 0.05))%float = Some a
       /\ 0 <= a <= 254)
  /\ (forall x1 y1 x2 y2 c1 c2,
        on_canvas x1 y1 -> on_canvas x2 y2 ->
        (0.85 <=? dist x1 y1)%float = true -> (dist x1 y1 <? 0.9)%float = true ->
        (0.85 <=? dist x2 y2)%float = true -> (dist x2 y2 <? 0.9)%float = true ->
        pixel x1 y1 = Some c1 -> pixel x2 y2 = Some c2 ->
        (dist x1 y1 <=? dist x2 y2)%float = true ->
        alpha_of c2 <= alpha_of c1)
  /\ to_int (255 * ((0.9 - 0.9) / 0.05))%float = Some 0
  /\ (dist 480 256 = 0.875%float /\ pixel 480 256 = Some (50, 40, 90, 127))
  /\ ((0.85 <=? dist 388 429)%float = true
      /\ (dist 388 429 <? 0.8501)%float = true
      /\ pixel 388 429 = Some (99, 79, 179, 254)).
Proof.
  split; [|split; [|vm_compute; repeat split]].
  - intros x y C H1 H2. apply rim_branch in H1.
    destruct (rim_canvas x y C H1 H2) as (r & g & b & a & E & A & _ & _ & _ & Ra).
    exists r, g, b, a. split; [exact E|]. split; [exact A | lia].
  - intros x1 y1 x2 y2 c1 c2 C1 C2 L1 U1 L2 U2 P1 P2 Le.
    apply rim_branch in L1, L2.
    destruct (rim_canvas x1 y1 C1 L1 U1) as (r1 & g1 & b1 & a1 & E1 & A1 & _).
    destruct (rim_canvas x2 y2 C2 L2 U2) as (r2 & g2 & b2 & a2 & E2 & A2 & _).
    rewrite E1 in P1. injection P1 as <-. rewrite E2 in P2. injection P2 as <-.
    cbn [alpha_of].
    pose proof (proj1 (rim_iff x1 y1 C1) (conj L1 U1)) as K1.
    pose proof (proj1 (rim_iff x2 y2 C2) (conj L2 U2)) as K2.
    rewrite (dist_canvas x1 y1 C1) in A1, Le.
    rewrite (dist_canvas x2 y2 C2) in A2, Le.
    destruct (Z.lt_trichotomy (sqk x1 y1) (sqk x2 y2)) as [Hlt | [Heq | Hgt]].
    + destruct (rim_mono (sqk x1 y1) (sqk x2 y2)) as (_ & a & a' & Ea & Ea' & Ha);
        try lia.
      rewrite A1 in Ea. rewrite A2 in Ea'. injection Ea as <-. injection Ea' as <-.
      exact Ha.
    + rewrite Heq in A1. rewrite A1 in A2. injection A2 as <-. lia.
    + destruct (rim_mono (sqk x2 y2) (sqk x1 y1)) as (Lt & _); try lia.
      rewrite (leb_not_ltb _ _ Le) in Lt. discriminate Lt.
Qed.

Lemma C5_rim_alpha_witness :
  exists r g b a, pixel 480 256 = Some (r, g, b, a) /\ 0 <= a <= 254.
Proof.
  destruct (proj1 C5_rim_alpha 480 256) as (r & g & b & a & E & _ & R);
    [unfold on_canvas, size; lia | reflexivity | reflexivity |].
  exists r, g, b, a. split; [exact E | exact R].
Defined.

(** C5 as stated fails just inside the 0.85 boundary: the rim pixel
    (388, 429), at distance 0.85003, has alpha 254, which is further than 200
    from 255/18. *)
Lemma C5_alpha_near_boundary :
  (0.85 <=? dist 388 429)%float = true
  /\ (dist 388 429 <? 0.8501)%float = true
  /\ pixel 388 429 = Some (99, 79, 179, 254)
  /\ 18 * 254 - 255 > 18 * 200.
Proof. vm_compute. repeat split. Qed.

(** C6: every pixel whose distance satisfies [dist >= 0.9] is the fully
    transparent black (0, 0, 0, 0). *)
Theorem C6_outside_transparent (x y : Z) :
  (0.9 <=? dist x y)%float = true -> pixel x y = Some (0, 0, 0, 0).
Proof.
  intros H. destruct (outside_branch _ H) as [H1 H2].
  exact (pixel_outside x y H1 H2).
Qed.

Lemma C6_outside_transparent_witness : pixel 0 0 = Some (0, 0, 0, 0).
Proof. apply (C6_outside_transparent 0 0). reflexivity. Defined.

(** C7: the IHDR payload is the 13 bytes of width 512 and height 512, each
    as four big-endian bytes, then bit depth 8, colour type 6, compression 0,
    filter 0 and interlace 0. *)
Theorem C7_ihdr_payload :
  ihdr = Some (be32 512 ++ be32 512 ++ [8; 6; 0; 0; 0])
  /\ be32 512 = [0; 0; 2; 0]
  /\ ihdr = Some [0; 0; 2; 0; 0; 0; 2; 0; 8; 6; 0; 0; 0]
  /\ List.length (be32 512 ++ be32 512 ++ [8; 6; 0; 0; 0]) = 13%nat.
Proof. repeat split. Qed.

(** C8: a chunk is the payload length as four big-endian bytes, the type
    tag, the payload, and the CRC-32 of tag followed by payload as four
    big-endian bytes; the stream is the signature and the IHDR, IDAT and IEND
    chunks so framed; the trailer of the IEND chunk is the CRC-32 of its tag,
    not that of its empty payload. *)
Theorem C8_chunk_framing :
  (forall t d, len d < 2 ^ 32 ->
     chunk t d
     = Some (be32 (len d) ++ t ++ d ++ be32 (Z.land (crc32 (t ++ d)) 0xffffffff)))
  /\ (forall zlib_compress r h,
        raw = Some r -> ihdr = Some h -> len (zlib_compress r 9) < 2 ^ 32 ->
        png zlib_compress
        = Some (signature ++ framed IHDR h ++ framed IDAT (zlib_compress r 9)
                ++ framed IEND []))
  /\ chunk IEND [] = Some ([0; 0; 0; 0] ++ IEND ++ [174; 66; 96; 130])
  /\ be32 (Z.land (crc32 (IEND ++ [])) 0xffffffff) = [174; 66; 96; 130]
  /\ be32 (Z.land (crc32 []) 0xffffffff) = [0; 0; 0; 0].
Proof.
  split; [exact chunk_framed|]. split; [exact png_stream|].
  vm_compute. repeat split.
Qed.

Lemma C8_chunk_framing_witness :
  chunk IHDR [0; 0; 2; 0; 0; 0; 2; 0; 8; 6; 0; 0; 0]
  = Some ([0; 0; 0; 13] ++ IHDR ++ [0; 0; 2; 0; 0; 0; 2; 0; 8; 6; 0; 0; 0]
          ++ be32 (Z.land (crc32 (IHDR ++ [0; 0; 2; 0; 0; 0; 2; 0; 8; 6; 0; 0; 0]))
                     0xffffffff)).
Proof.
  apply (proj1 C8_chunk_framing IHDR [0; 0; 2; 0; 0; 0; 2; 0; 8; 6; 0; 0; 0]).
  vm_compute. reflexivity.
Defined.

(** C9: every interior pixel of the canvas is opaque: the base gradient sets
    alpha to 255 and the stages after it assign the three colour channels
    only. *)
Theorem C9_interior_opaque (x y : Z) :
  on_canvas x y ->
  (dist x y <? 0.85)%float = true ->
  (exists r0 g0 b0, base_color y = Some (r0, g0, b0, 255))
  /\ (exists r g b, pixel x y = Some (r, g, b, 255))
  /\ (forall c r g b, alpha_of (set_rgb c r g b) = alpha_of c).
Proof.
  intros C I. split; [|split; [|reflexivity]].
  - destruct (base_good y (proj2 C)) as ([[[r g] b] a] & E & G).
    simpl in G. destruct G as (_ & _ & _ & ->). exists r, g, b. exact E.
  - destruct (interior_result x y C I) as (k2 & G & E).
    pose proof (paint_red_alpha (arrow x y) k2) as A.
    rewrite (good_alpha k2 G) in A.
    destruct (paint_red (arrow x y) k2) as [[[r g] b] a]. simpl in A. subst a.
    exists r, g, b. exact E.
Qed.

Lemma C9_interior_opaque_witness : exists r g b, pixel 256 100 = Some (r, g, b, 255).
Proof.
  apply (C9_interior_opaque 256 100);
    [unfold on_canvas, size; lia | reflexivity].
Defined.

(** * Further properties *)

(** ** The synthesizer *)

(** X1: the branch of a canvas pixel is decided by its squared pixel distance
    from (256, 256): the pixel is opaque exactly when that is at most 47349,
    it is the transparent black whenever that exceeds 53084, and in between
    its alpha is below 255. *)
Theorem opaque_disc (x y : Z) :
  on_canvas x y ->
  exists c,
    pixel x y = Some c
    /\ (alpha_of c = 255 <-> (x - 256) * (x - 256) + (y - 256) * (y - 256) <= 47349)
    /\ (53084 < (x - 256) * (x - 256) + (y - 256) * (y - 256) -> c = (0, 0, 0, 0)).
Proof.
  intros C. fold (sqk x y). change 47349 with k_interior. change 53084 with k_rim.
  pose proof (interior_iff x y C) as I. pose proof (rim_iff x y C) as R.
  destruct (dist x y <? 0.85)%float eqn:H1.
  - destruct (interior_result x y C H1) as (k2 & G & E).
    exists (paint_red (arrow x y) k2). split; [exact E|].
    rewrite paint_red_alpha, (good_alpha k2 G).
    pose proof (proj1 I eq_refl). unfold k_interior, k_rim in *. split; [tauto | lia].
  - assert (N : ~ sqk x y <= k_interior) by (intros K; apply I in K; discriminate K).
    destruct (dist x y <? 0.9)%float eqn:H2.
    + destruct (rim_canvas x y C H1 H2) as (r & g & b & a & E & _ & _ & _ & _ & Ra).
      exists (r, g, b, a). split; [exact E|]. cbn [alpha_of].
      pose proof (proj1 R (conj eq_refl eq_refl)). split; [split; lia | lia].
    + exists (0, 0, 0, 0). split; [exact (pixel_outside x y H1 H2)|].
      cbn [alpha_of]. split; [split; [discriminate | tauto] | reflexivity].
Qed.

Lemma opaque_disc_witness :
  exists c, pixel 256 39 = Some c /\ alpha_of c = 255.
Proof.
  destruct (opaque_disc 256 39) as (c & E & A & _); [unfold on_canvas, size; lia|].
  exists c. split; [exact E|]. apply A. lia.
Defined.

(** X2: the interior is painted by priority: the arrowhead's red, else the bottom
    cylinder (its upper cap's colour, else its shaded blue), else the top
    cylinder (its upper cap's colour, else its shaded green), else the base
    gradient of the row. *)
Theorem interior_priority (x y : Z) :
  on_canvas x y ->
  (dist x y <? 0.85)%float = true ->
  exists r0 g0 b0 r1 g1 b1 r2 g2 b2,
    base_color y = Some (r0, g0, b0, 255)
    /\ to_int (40 * shade (norm x))%float = Some r1
    /\ to_int (180 * shade (norm x))%float = Some g1
    /\ to_int (100 * shade (norm x))%float = Some b1
    /\ to_int (60 * shade (norm x))%float = Some r2
    /\ to_int (140 * shade (norm x))%float = Some g2
    /\ to_int (220 * shade (norm x))%float = Some b2
    /\ pixel x y
       = Some (if arrow x y then (255, 100, 100, 255)
               else if bot_test x y
                    then (if top_e2 x y then (80, 170, 255, 255) else (r2, g2, b2, 255))
               else if top_test x y
                    then (if top_e1 x y then (60, 220, 130, 255) else (r1, g1, b1, 255))
               else (r0, g0, b0, 255)).
Proof. exact (interior_table x y). Qed.

Lemma interior_priority_witness :
  exists c, pixel 100 200 = Some c /\ alpha_of c = 255.
Proof.
  destruct (interior_priority 100 200)
    as (r0 & g0 & b0 & r1 & g1 & b1 & r2 & g2 & b2 & _ & _ & _ & _ & _ & _ & _ & E);
    [unfold on_canvas, size; lia | reflexivity |].
  eexists. split; [exact E|].
  destruct (arrow 100 200), (bot_test 100 200), (top_e2 100 200),
    (top_test 100 200), (top_e1 100 200); reflexivity.
Defined.

(** X3: the image is symmetric about the column 256: columns [x] and [512 - x]
    hold the same pixels, row by row. *)
Theorem mirror_symmetry (x y : Z) :
  1 <= x < size -> pixel (size - x) y = pixel x y.
Proof.
  intros H. destruct (mirror_canvas x H) as (A & M & P).
  unfold pixel, pixel_with, interior_with, dist_of, sumsq, cyl_test, in_cyl,
    cap_upper, cap_lower, top_paint, bot_paint, cyl_paint, shade,
    connector_test, arrow_test.
  cbv zeta. rewrite A, M, P. reflexivity.
Qed.

Lemma mirror_symmetry_witness : pixel (size - 100) 200 = pixel 100 200.
Proof. apply mirror_symmetry. unfold size. lia. Defined.

(** X4: the lower cap of the top cylinder is the same ellipse as the upper cap of
    the bottom cylinder, and the bottom stage runs later: an interior pixel in
    the top cylinder's lower cap never keeps the top cylinder's green, it is
    (80, 170, 255) or the arrowhead's red. *)
Theorem lower_cap_overpainted (x y : Z) :
  on_canvas x y ->
  (dist x y <? 0.85)%float = true ->
  bot_e1 x y = true ->
  top_e2 x y = true
  /\ pixel x y
     = Some (if arrow x y then (255, 100, 100, 255) else (80, 170, 255, 255)).
Proof.
  intros C I B.
  assert (T : top_e2 x y = true).
  { unfold bot_e1, cap_lower in B. unfold top_e2, cap_upper.
    rewrite <- (caps_meet_canvas y (proj2 C)). exact B. }
  split; [exact T|].
  destruct (interior_table x y C I)
    as (r0 & g0 & b0 & r1 & g1 & b1 & r2 & g2 & b2 & _ & _ & _ & _ & _ & _ & _ & E).
  rewrite E, T.
  assert (BT : bot_test x y = true).
  { unfold bot_test, cyl_test. unfold top_e2 in T. rewrite T.
    destruct (in_cyl cy2 cyl_height (norm x) (norm y)); reflexivity. }
  rewrite BT. reflexivity.
Qed.

Lemma lower_cap_overpainted_witness : pixel 256 256 = Some (80, 170, 255, 255).
Proof.
  destruct (lower_cap_overpainted 256 256) as (_ & E);
    [unfold on_canvas, size; lia | reflexivity | reflexivity |].
  exact E.
Defined.

(** X5: down the rows no channel of the base gradient falls, and the gradient
    runs from (30, 20, 80) in row 0 to (69, 49, 159) in row 511. *)
Theorem base_gradient_monotone (y y' : Z) :
  0 <= y -> y <= y' -> y' < size ->
  exists r g b r' g' b',
    base_color y = Some (r, g, b, 255) /\ base_color y' = Some (r', g', b', 255)
    /\ 30 <= r <= r' /\ r' <= 69
    /\ 20 <= g <= g' /\ g' <= 49
    /\ 80 <= b <= b' /\ b' <= 159.
Proof.
  intros H0 Hle H1.
  assert (Chain : forall n : nat, forall y0, 0 <= y0 -> y0 + Z.of_nat n < size ->
            exists r g b r' g' b',
              base_color y0 = Some (r, g, b, 255)
              /\ base_color (y0 + Z.of_nat n) = Some (r', g', b', 255)
              /\ r <= r' /\ g <= g' /\ b <= b').
  { induction n as [|n IH]; intros y0 Hy0 Hn.
    - destruct (base_good y0 ltac:(lia)) as ([[[r g] b] a] & E & G).
      simpl in G. destruct G as (_ & _ & _ & ->).
      exists r, g, b, r, g, b. replace (y0 + Z.of_nat 0) with y0 by lia.
      repeat split; try assumption; lia.
    - destruct (IH y0 Hy0 ltac:(lia)) as (r & g & b & r' & g' & b' & E & E' & Hr & Hg & Hb).
      pose proof (base_step_canvas (y0 + Z.of_nat n) ltac:(lia)) as St.
      unfold base_step_ok in St. rewrite E' in St.
      replace (y0 + Z.of_nat n + 1) with (y0 + Z.of_nat (S n)) in St by lia.
      destruct (base_good (y0 + Z.of_nat (S n)) ltac:(lia)) as ([[[r2 g2] b2] a2] & E2 & G2).
      simpl in G2. destruct G2 as (_ & _ & _ & ->). rewrite E2 in St.
      exists r, g, b, r2, g2, b2. repeat split; try assumption; lia. }
  destruct (Chain (Z.to_nat y) 0 ltac:(lia) ltac:(lia))
    as (ra & ga & ba & r & g & b & Ea & E & Hr & Hg & Hb).
  destruct (Chain (Z.to_nat (y' - y)) y H0 ltac:(lia))
    as (r1 & g1 & b1 & r' & g' & b' & E1 & E' & Hr' & Hg' & Hb').
  destruct (Chain (Z.to_nat (511 - y')) y' ltac:(lia) ltac:(unfold size in *; lia))
    as (r3 & g3 & b3 & rz & gz & bz & E3 & Ez & Hrz & Hgz & Hbz).
  replace (0 + Z.of_nat (Z.to_nat y)) with y in E by lia.
  replace (y + Z.of_nat (Z.to_nat (y' - y))) with y' in E' by lia.
  replace (y' + Z.of_nat (Z.to_nat (511 - y'))) with 511 in Ez by (unfold size in *; lia).
  rewrite E in E1. injection E1 as <- <- <-.
  rewrite E' in E3. injection E3 as <- <- <-.
  assert (B0 : base_color 0 = Some (30, 20, 80, 255)) by (vm_compute; reflexivity).
  assert (B511 : base_color 511 = Some (69, 49, 159, 255)) by (vm_compute; reflexivity).
  rewrite B0 in Ea. injection Ea as <- <- <-.
  rewrite B511 in Ez. injection Ez as <- <- <-.
  exists r, g, b, r', g', b'. repeat split; try assumption; lia.
Qed.

Lemma base_gradient_monotone_witness :
  exists r g b r' g' b',
    base_color 10 = Some (r, g, b, 255) /\ base_color 500 = Some (r', g', b', 255)
    /\ r <= r' /\ g <= g' /\ b <= b'.
Proof.
  destruct (base_gradient_monotone 10 500) as (r & g & b & r' & g' & b' & E & E' & H);
    [lia | lia | unfold size; lia |].
  exists r, g, b, r', g', b'. repeat split; try assumption; lia.
Defined.

(** X6: a rim pixel is the rim colour (100, 80, 180, 255) scaled by [af] and
    truncated channel by channel: the channels keep the order of the full
    colour and stay strictly below it. *)
Theorem rim_channels (x y : Z) :
  on_canvas x y ->
  (0.85 <=? dist x y)%float = true -> (dist x y <? 0.9)%float = true ->
  exists r g b a,
    pixel x y = Some (r, g, b, a)
    /\ to_int (100 * af (dist x y))%float = Some r
    /\ to_int (80 * af (dist x y))%float = Some g
    /\ to_int (180 * af (dist x y))%float = Some b
    /\ to_int (255 * af (dist x y))%float = Some a
    /\ 0 <= g <= r /\ r <= b <= a
    /\ r < 100 /\ g < 80 /\ b < 180 /\ a < 255.
Proof.
  intros C H1 H2. apply rim_branch in H1. rewrite (pixel_rim x y H1 H2).
  pose proof (proj1 (rim_iff x y C) (conj H1 H2)) as K.
  pose proof (rim_ok_canvas _ K) as R. rewrite <- (dist_canvas x y C) in R.
  unfold rim_ok in R.
  destruct (rim_color (dist x y)) as [[[[r g] b] a]|] eqn:E; [|discriminate R].
  exists r, g, b, a. split; [reflexivity|].
  unfold rim_color in E. cbv zeta in E.
  destruct (to_int (100 * af (dist x y))%float); [simpl in E | discriminate E].
  destruct (to_int (80 * af (dist x y))%float); [simpl in E | discriminate E].
  destruct (to_int (180 * af (dist x y))%float); [simpl in E | discriminate E].
  destruct (to_int (255 * af (dist x y))%float); [simpl in E | discriminate E].
  injection E as -> -> -> ->. repeat split; try reflexivity; lia.
Qed.

Lemma rim_channels_witness :
  exists r g b a, pixel 480 256 = Some (r, g, b, a) /\ g <= r /\ r <= b /\ b <= a.
Proof.
  destruct (rim_channels 480 256) as (r & g & b & a & E & _ & _ & _ & _ & H);
    [unfold on_canvas, size; lia | reflexivity | reflexivity |].
  exists r, g, b, a. split; [exact E | lia].
Defined.


(** X7: the pixel loop never raises: it yields 512 scanlines, each the filter byte
    0 followed by 2048 channel bytes, and [raw] is their concatenation, of
    512 * 2049 bytes. *)
Theorem scanline_layout :
  exists rows,
    pixels = Some rows /\ raw = Some (List.concat rows)
    /\ len (List.concat rows) = 512 * 2049
    /\ Z.of_nat (List.length rows) = 512
    /\ Forall (fun l => exists row, l = 0 :: row
                          /\ Z.of_nat (List.length row) = 2048
                          /\ Forall (fun v => 0 <= v < 256) row) rows.
Proof.
  destruct pixels_layout as (rows & Ep & Er & L & F).
  exists rows. split; [exact Ep|]. split; [exact Er|].
  assert (F' : Forall (fun l => exists row, l = 0 :: row
                          /\ Z.of_nat (List.length row) = 2048
                          /\ Forall (fun v => 0 <= v < 256) row) rows).
  { eapply Forall_impl; [|exact F]. intros l (row & -> & Hl & Hb).
    exists row. split; [reflexivity|]. split; [|exact Hb].
    rewrite Hl. unfold size. clear. lia. }
  split; [|split; [rewrite L; unfold size; clear; lia | exact F']].
  unfold len. rewrite (concat_uniform (Z.to_nat 2049) rows).
  - rewrite L. unfold size. clear. lia.
  - eapply Forall_impl; [|exact F']. intros l (row & -> & Hl & _).
    cbn [List.length]. clear - Hl. lia.
Qed.

(** X8: [chunk] raises exactly when the payload is 2^32 bytes or longer;
    otherwise its result is eight bytes longer than tag and payload. *)
Theorem chunk_length_limit (t d : list Z) :
  match chunk t d with
  | Some out => len d < 2 ^ 32 /\ len out = len t + len d + 8
  | None => 2 ^ 32 <= len d
  end.
Proof.
  destruct (Z.lt_ge_cases (len d) (2 ^ 32)) as [L | G].
  - rewrite (chunk_framed t d L). split; [exact L | apply framed_length].
  - rewrite (chunk_oversize t d G). exact G.
Qed.

(** X9: the first four bytes of a chunk are the payload length, most significant
    byte first, and the framing adds only bytes: the four of the length and
    the four of the CRC. *)
Theorem chunk_length_prefix (t d out : list Z) :
  chunk t d = Some out ->
  exists b0 b1 b2 b3 crc,
    out = [b0; b1; b2; b3] ++ t ++ d ++ crc
    /\ 0 <= b0 < 256 /\ 0 <= b1 < 256 /\ 0 <= b2 < 256 /\ 0 <= b3 < 256
    /\ b0 * 2 ^ 24 + b1 * 2 ^ 16 + b2 * 2 ^ 8 + b3 = len d
    /\ List.length crc = 4%nat /\ Forall (fun v => 0 <= v < 256) crc.
Proof.
  intros H.
  destruct (Z.lt_ge_cases (len d) (2 ^ 32)) as [L | G];
    [|rewrite (chunk_oversize t d G) in H; discriminate H].
  rewrite (chunk_framed t d L) in H. injection H as <-.
  destruct (be32_value (len d)) as (b0 & b1 & b2 & b3 & E & R0 & R1 & R2 & R3 & V);
    [unfold len in *; lia|].
  destruct (be32_value (Z.land (crc32 (t ++ d)) 0xffffffff))
    as (c0 & c1 & c2 & c3 & Ec & Q0 & Q1 & Q2 & Q3 & _); [apply land_u32|].
  exists b0, b1, b2, b3, [c0; c1; c2; c3].
  unfold framed. rewrite E, Ec. repeat split; try assumption; try lia.
  repeat constructor; lia.
Qed.

Lemma chunk_length_prefix_witness :
  exists b0 b1 b2 b3 crc,
    chunk IEND [] = Some ([b0; b1; b2; b3] ++ IEND ++ [] ++ crc)
    /\ b0 * 2 ^ 24 + b1 * 2 ^ 16 + b2 * 2 ^ 8 + b3 = 0.
Proof.
  destruct (chunk_length_prefix IEND [] [0; 0; 0; 0; 73; 69; 78; 68; 174; 66; 96; 130])
    as (b0 & b1 & b2 & b3 & crc & E & _ & _ & _ & _ & V & _); [reflexivity|].
  exists b0, b1, b2, b3, crc. split; [rewrite <- E; reflexivity | exact V].
Defined.

(** X10: on bytes the CRC-32 is a 32-bit value, so the mask [& 0xffffffff] of
    line 63 leaves it as it is. *)
Theorem crc32_mask_noop (data : list Z) :
  Forall (fun b => 0 <= b < 256) data ->
  0 <= crc32 data < 2 ^ 32 /\ Z.land (crc32 data) 0xffffffff = crc32 data.
Proof.
  intros F.
  assert (R : 0 <= crc32 data < 2 ^ 32).
  { unfold crc32. apply lxor_u32.
    - apply crc_fold_u32; [exact F | vm_compute; split; [discriminate | reflexivity]].
    - vm_compute. split; [discriminate | reflexivity]. }
  split; [exact R|].
  change 0xffffffff with (Z.ones 32). rewrite Z.land_ones by lia.
  apply Z.mod_small. exact R.
Qed.

Lemma crc32_mask_noop_witness : Z.land (crc32 IEND) 0xffffffff = crc32 IEND.
Proof.
  apply (crc32_mask_noop IEND). unfold IEND. repeat constructor; lia.
Defined.

(** X11: a stream the encoder yields is 57 bytes longer than the deflate output;
    it starts with the eight bytes of the signature and ends with the twelve
    bytes of the empty IEND chunk. *)
Theorem png_layout (zlib_compress : list Z -> Z -> list Z) (stream : list Z) :
  png zlib_compress = Some stream ->
  exists r,
    raw = Some r
    /\ len stream = 57 + len (zlib_compress r 9)
    /\ firstn 8 stream = signature
    /\ skipn (List.length stream - 12) stream
       = [0; 0; 0; 0; 73; 69; 78; 68; 174; 66; 96; 130].
Proof.
  intros H. destruct raw_total as (r & Er). exists r. split; [exact Er|].
  destruct (Z.lt_ge_cases (len (zlib_compress r 9)) (2 ^ 32)) as [L | G];
    [|discriminate (eq_trans (eq_sym H) (png_oversize zlib_compress r Er G))].
  pose proof (eq_trans (eq_sym H) (png_stream zlib_compress r _ Er ihdr_value L)) as E.
  clear H. apply Some_inj in E. subst stream.
  pose proof (framed_length IDAT (zlib_compress r 9)) as Li.
  set (idat := framed IDAT (zlib_compress r 9)) in *.
  change (framed IEND []) with [0; 0; 0; 0; 73; 69; 78; 68; 174; 66; 96; 130].
  let v := eval vm_compute in (framed IHDR [0; 0; 2; 0; 0; 0; 2; 0; 8; 6; 0; 0; 0]) in
  change (framed IHDR [0; 0; 2; 0; 0; 0; 2; 0; 8; 6; 0; 0; 0]) with v.
  split; [|split; [reflexivity|]].
  - unfold len in *. rewrite !length_app. cbn [signature IDAT List.length] in *. lia.
  - rewrite !app_assoc.
    match goal with |- skipn ?n (?a ++ ?l) = _ =>
      replace n with (List.length a + 0)%nat
        by (rewrite (length_app a l); cbn [List.length]; lia)
    end.
    rewrite skipn_app, Nat.add_comm, Nat.add_sub. cbn [skipn].
    rewrite skipn_all2 by lia. reflexivity.
Qed.

Lemma png_layout_witness :
  exists stream, png (fun _ _ => []) = Some stream /\ len stream = 57.
Proof.
  destruct raw_total as (r & Er).
  pose proof (png_stream (fun _ _ => []) r _ Er ihdr_value eq_refl) as P.
  destruct (png_layout (fun _ _ => []) _ P) as (r' & _ & L & _).
  eexists. split; [exact P | exact L].
Defined.

(** X12: the program as a whole: when the deflate output does not fit a chunk the
    encoder fails and [main] with it, whatever the file system would do;
    otherwise the result of [main] is the result of the one write, followed by
    the one line printed. *)
Theorem main_outcome (zlib_compress : list Z -> Z -> list Z) (World : Type)
    (write_file : World -> string -> list Z -> option World)
    (print : World -> string -> World) (w : World) :
  exists r,
    raw = Some r
    /\ (2 ^ 32 <= len (zlib_compress r 9) ->
        png zlib_compress = None
        /\ main zlib_compress World write_file print w = None)
    /\ (len (zlib_compress r 9) < 2 ^ 32 ->
        exists stream,
          png zlib_compress = Some stream
          /\ main zlib_compress World write_file print w
             = match write_file w "src-tauri/icons/icon.png"%string stream with
               | Some w' => Some (print w' "Created 512x512 pgshift icon"%string)
               | None => None
               end).
Proof.
  destruct raw_total as (r & Er). exists r. split; [exact Er|]. split.
  - intros G. pose proof (png_oversize zlib_compress r Er G) as N.
    split; [exact N|]. unfold main. rewrite N. reflexivity.
  - intros L. pose proof (png_stream zlib_compress r _ Er ihdr_value L) as P.
    eexists. split; [exact P|]. unfold main. rewrite P. cbn [bind].
    destruct (write_file w _ _); reflexivity.
Qed.

Lemma main_outcome_witness :
  exists stream,
    png (fun _ _ => []) = Some stream
    /\ main (fun _ _ => []) unit (fun _ _ _ => None) (fun w _ => w) tt = None.
Proof.
  destruct (main_outcome (fun _ _ => []) unit (fun _ _ _ => None) (fun w _ => w) tt)
    as (r & _ & _ & S).
  destruct (S eq_refl) as (stream & P & M).
  exists stream. split; [exact P | exact M].
Defined.
